(** * snowmobile_analyzer: the detection pipeline of [src/predict.py]

    A shallow embedding of [compute_hr], [predict], [get_outname],
    [write_results] and [analyzeFile], and the properties of the decision
    pipeline proved about it.

    Conventions of the embedding:
    - a float is an IEEE 754 value, [spec_float] of the Standard Library:
      a Python float in its binary64 form, the entries of a NumPy array
      and a NumPy scalar in the form of their dtype, float32 or float64;
      comparisons are [SFltb] and [SFleb], so NaN and the infinities
      behave as they do in Python;
    - a NumPy float and a Python float are compared after NumPy has
      brought them to one type: the Python float is rounded to the dtype
      of the NumPy float (NumPy 2), or both are taken to float64 (NumPy
      1); [predict.py] does not say which NumPy it runs on, so the rule
      is a parameter, [NumpyVersion];
    - a Python exception is the [Raise] result of the error monad; code
      that touches the file system, the console or the log runs in a
      state-and-error monad over [world], and the state survives a raise;
    - the classifier, [np.exp], the clip reader and the [AudioSignal]
      class live outside [predict.py] and are parameters; they are taken
      to return;
    - a file is known by the string of its path; [open] for writing and
      [os.makedirs] are taken to return: the folder written in is there
      and writable, and no part of a path to make is a regular file. *)

From Stdlib Require Import ZArith List String Ascii Bool Lia Sorted.
From Stdlib Require Import Floats.SpecFloat.
From stdpp Require Import base gmap strings list.
Import ListNotations.

Local Open Scope Z_scope.

(** ** Python results and exceptions *)

Inductive exn : Type :=
| ValueError (msg : string)
| IndexError (msg : string).

Inductive result (A : Type) : Type :=
| Ok (a : A)
| Raise (e : exn).
Arguments Ok {A} a.
Arguments Raise {A} e.

Definition rbind {A B} (r : result A) (k : A -> result B) : result B :=
  match r with
  | Ok a => k a
  | Raise e => Raise e
  end.

Declare Scope py_scope.
Delimit Scope py_scope with py.
Notation "'let*' x ':=' r 'in' k" := (rbind r (fun x => k))
  (at level 10, x name, r at level 100, k at level 200) : py_scope.
Local Open Scope py_scope.

(** ** Floats *)

Module Float.

Definition prec : Z := 53.
Definition emax : Z := 1024.

(** [float(n)] for a Python int [n]. *)
Definition of_Z (n : Z) : spec_float := binary_normalize prec emax n 0 false.

Definition mul : spec_float -> spec_float -> spec_float := SFmul prec emax.
Definition div : spec_float -> spec_float -> spec_float := SFdiv prec emax.

Definition is_nan (f : spec_float) : bool :=
  match f with S754_nan => true | _ => false end.

(** A Python float is a binary64 value: its mantissa and its exponent are
    those of the format. *)
Definition valid (f : spec_float) : bool := valid_binary prec emax f.

(** Python's [int(x)] on a float: truncation toward zero; NaN and the
    infinities raise. *)
Definition to_int (f : spec_float) : result Z :=
  match f with
  | S754_zero _ => Ok 0
  | S754_finite s m e =>
      let a := if 0 <=? e then Z.pos m * 2 ^ e else Z.pos m / 2 ^ (- e) in
      Ok (if s then - a else a)
  | S754_infinity _ => Raise (ValueError "cannot convert float infinity to integer")
  | S754_nan => Raise (ValueError "cannot convert float NaN to integer")
  end.

(** The literal [0]: the sentinel harmonic ratio. Python compares the
    int 0 with a float as 0.0. *)
Definition zero : spec_float := S754_zero false.

(** The binary64 values of the literals [0.99] and [0.1]. *)
Definition lit_0_99 : spec_float := S754_finite false 8917127262193582 (-53).
Definition lit_0_1 : spec_float := S754_finite false 7205759403792794 (-56).

End Float.

(** ** NumPy floats: arrays and scalars *)

Inductive dtype : Type := Float32 | Float64.

Module Dtype.

Definition prec (d : dtype) : Z := match d with Float32 => 24 | Float64 => 53 end.
Definition emax (d : dtype) : Z := match d with Float32 => 128 | Float64 => 1024 end.

(** The value of dtype [d] nearest to [x], ties to even: what
    [x.astype(d)] and the conversion of a Python float to [d] give. *)
Definition round (d : dtype) (x : spec_float) : spec_float :=
  match x with
  | S754_finite s m e => binary_round (prec d) (emax d) s m e
  | _ => x
  end.

End Dtype.

(** A one-dimensional float array. *)
Record ndarray : Type := NdArray {
  arr_dtype : dtype;
  arr_values : list spec_float
}.

(** A two-dimensional float array, by rows. *)
Record matrix : Type := Matrix {
  matrix_dtype : dtype;
  matrix_rows : list (list spec_float)
}.

(** A NumPy float scalar, or a zero-dimensional float array. *)
Record np_float : Type := NpFloat {
  np_dtype : dtype;
  np_value : spec_float
}.

(** What a list of harmonic ratios holds: a Python int (the [0] that
    [predict] appends for a clip it skips) or a NumPy float (the result of
    [np.mean]). *)
Inductive scalar : Type :=
| PyInt (z : Z)
| NpScalar (x : np_float).

(** ** NumPy reductions on a one-dimensional float array *)

Module Np.

(** One step of [np.maximum.reduce]: [(a >= b || isnan(a)) ? a : b]. *)
Definition maximum (a b : spec_float) : spec_float :=
  if SFleb b a || Float.is_nan a then a else b.

(** [conf.max()]; an empty array raises. *)
Definition max (conf : list spec_float) : result spec_float :=
  match conf with
  | [] => Raise (ValueError "zero-size array to reduction operation maximum which has no identity")
  | x :: xs => Ok (fold_left maximum xs x)
  end.

(** The scan of [np.argmax]: [mp] is the best value so far, [best] its
    index and [i] the index of the head of [xs]; the best moves on
    [!(x <= mp)] and the scan stops at the first NaN. *)
Fixpoint argmax_scan (xs : list spec_float) (i : nat) (mp : spec_float) (best : nat) : nat :=
  match xs with
  | [] => best
  | x :: xs' =>
      if Float.is_nan mp then best
      else if negb (SFleb x mp) then argmax_scan xs' (S i) x i
      else argmax_scan xs' (S i) mp best
  end.

(** [np.argmax(conf, axis=0)]; an empty array raises. *)
Definition argmax (conf : list spec_float) : result nat :=
  match conf with
  | [] => Raise (ValueError "attempt to get argmax of an empty sequence")
  | x :: xs => Ok (argmax_scan xs 1 x 0)
  end.

(** [conf.max()] as the scalar it is: of the dtype of [conf]. *)
Definition amax (conf : ndarray) : result np_float :=
  let* m := max (arr_values conf) in Ok (NpFloat (arr_dtype conf) m).

End Np.

(** ** Comparing a NumPy float with a Python float *)

(** The two rules NumPy has had for a NumPy scalar, or a zero-dimensional
    array, met by a Python float: up to NumPy 1 the result type is
    float64, whatever the dtype of the NumPy float; from NumPy 2 on the
    Python float is weak and takes the dtype of the NumPy float. *)
Inductive promotion : Type :=
| Legacy
| WeakScalars.

Class NumpyVersion : Type := { promotion_rule : promotion }.

(** The two operands as NumPy compares them: the NumPy float [x] first,
    the Python float [t] second. *)
Definition operands `{NumpyVersion} (x : np_float) (t : spec_float)
  : spec_float * spec_float :=
  match promotion_rule with
  | WeakScalars => (np_value x, Dtype.round (np_dtype x) t)
  | Legacy => (Dtype.round Float64 (np_value x), t)
  end.

(** [x > t] and [x >= t]. *)
Definition np_gt `{NumpyVersion} (x : np_float) (t : spec_float) : bool :=
  SFltb (snd (operands x t)) (fst (operands x t)).

Definition np_ge `{NumpyVersion} (x : np_float) (t : spec_float) : bool :=
  SFleb (snd (operands x t)) (fst (operands x t)).

(** The operands of [np.array(item_hr) > t]: an int array and a Python
    float meet in float64 under both rules. *)
Definition hr_operands `{NumpyVersion} (hr : scalar) (t : spec_float)
  : spec_float * spec_float :=
  match hr with
  | PyInt z => (Float.of_Z z, t)
  | NpScalar x => operands x t
  end.

Definition hr_gt `{NumpyVersion} (hr : scalar) (t : spec_float) : bool :=
  SFltb (snd (hr_operands hr t)) (fst (hr_operands hr t)).

(** ** The world outside the interpreter: files, console and log *)

Inductive cell : Type :=
| CStr (s : string)
| CInt (z : Z)
| CFloat (f : spec_float).

(** A CSV file as [csv.writer] receives it: a list of rows of cells. *)
Definition csv_row : Type := list cell.

(** The cell of a harmonic ratio: an int is written as an int. *)
Definition hr_cell (hr : scalar) : cell :=
  match hr with
  | PyInt z => CInt z
  | NpScalar x => CFloat (np_value x)
  end.

Inductive event : Type :=
| Printed (msg : string)
| LoggedInfo (msg : string)
| FileWritten (path : string) (content : list csv_row).

(** [files] maps a path to the content of the regular file there, [dirs]
    holds the directories, [events] is what the process has done so far,
    oldest first. Paths are taken relative to one working directory. *)
Record world : Type := World {
  files : gmap string (list csv_row);
  dirs : gset string;
  events : list event
}.

Definition io (A : Type) : Type := world -> result A * world.

Definition ret {A} (a : A) : io A := fun w => (Ok a, w).

Definition bind {A B} (c : io A) (k : A -> io B) : io B :=
  fun w =>
    match c w with
    | (Ok a, w') => k a w'
    | (Raise e, w') => (Raise e, w')
    end.

Definition lift {A} (r : result A) : io A := fun w => (r, w).

Notation "'let!' x ':=' c 'in' k" := (bind c (fun x => k))
  (at level 10, x name, c at level 100, k at level 200) : py_scope.

(** ** Strings and paths *)

Module Str.

(** [s.split(sep)] for a one-character separator: never empty. *)
Fixpoint split (sep : ascii) (s : string) : list string :=
  match s with
  | EmptyString => [EmptyString]
  | String c s' =>
      if Ascii.eqb c sep then EmptyString :: split sep s'
      else match split sep s' with
           | p :: ps => String c p :: ps
           | [] => [String c EmptyString]
           end
  end.

Fixpoint contains (sep : ascii) (s : string) : bool :=
  match s with
  | EmptyString => false
  | String c s' => Ascii.eqb c sep || contains sep s'
  end.

(** [s[: s.rfind(sep) + 1]]. *)
Fixpoint upto_last (sep : ascii) (s : string) : string :=
  match s with
  | EmptyString => EmptyString
  | String c s' => if contains sep s then String c (upto_last sep s') else EmptyString
  end.

(** [s.rstrip(sep)]. *)
Fixpoint rstrip (sep : ascii) (s : string) : string :=
  match s with
  | EmptyString => EmptyString
  | String c s' =>
      match rstrip sep s' with
      | EmptyString => if Ascii.eqb c sep then EmptyString else String c EmptyString
      | r => String c r
      end
  end.

Fixpoint all_are (sep : ascii) (s : string) : bool :=
  match s with
  | EmptyString => true
  | String c s' => Ascii.eqb c sep && all_are sep s'
  end.

Definition startswith (sep : ascii) (s : string) : bool :=
  match s with
  | String c _ => Ascii.eqb c sep
  | EmptyString => false
  end.

Fixpoint endswith (sep : ascii) (s : string) : bool :=
  match s with
  | EmptyString => false
  | String c EmptyString => Ascii.eqb c sep
  | String _ s' => endswith sep s'
  end.

Definition is_empty (s : string) : bool :=
  match s with EmptyString => true | _ => false end.

(** [sep.join(parts)]. *)
Fixpoint join (sep : string) (parts : list string) : string :=
  match parts with
  | [] => EmptyString
  | [x] => x
  | x :: rest => x +:+ sep +:+ join sep rest
  end.

End Str.

Module Path.

Definition sep : ascii := "/"%char.

(** [posixpath.dirname]. *)
Definition dirname (p : string) : string :=
  let head := Str.upto_last sep p in
  if negb (Str.is_empty head) && negb (Str.all_are sep head)
  then Str.rstrip sep head else head.

(** [posixpath.basename]: what follows the last separator. *)
Definition basename (p : string) : string :=
  List.last (Str.split sep p) EmptyString.

(** [posixpath.join(a, b)]. *)
Definition join (a b : string) : string :=
  if Str.startswith sep b then b
  else if Str.is_empty a || Str.endswith sep a then a +:+ b
  else a +:+ String sep b.

(** What stands in front of each separator of [p], shortest first. *)
Fixpoint prefixes (p : string) : list string :=
  match p with
  | EmptyString => []
  | String c p' =>
      (if Ascii.eqb c sep then [EmptyString] else []) ++ map (String c) (prefixes p')
  end.

(** The folders above [p]: [a] and [a/b] for [a/b/c]. *)
Definition parents (p : string) : list string :=
  List.filter (fun s => negb (Str.is_empty s)) (prefixes p).

End Path.

(** ** The console, the log and the file system *)

Module Os.

(** [print(msg)]. *)
Definition print (msg : string) : io unit :=
  fun w => (Ok tt, World (files w) (dirs w) (events w ++ [Printed msg])).

(** [logging.info(msg)]. *)
Definition logging_info (msg : string) : io unit :=
  fun w => (Ok tt, World (files w) (dirs w) (events w ++ [LoggedInfo msg])).

(** [with open(path, "w") as file: csv.writer(file).writerows(content)]:
    creates the file or truncates the one there. The folder of [path] is
    taken to exist and to be writable, and [path] not to be a folder, so
    that [open] returns. *)
Definition write_csv (path : string) (content : list csv_row) : io unit :=
  fun w => (Ok tt, World (<[path := content]> (files w)) (dirs w)
                         (events w ++ [FileWritten path content])).

(** [os.path.exists(path)]. *)
Definition path_exists (path : string) : io bool :=
  fun w => (Ok (bool_decide (is_Some (files w !! path)) || bool_decide (path ∈ dirs w)), w).

(** [os.makedirs(path)], which the code calls where nothing is at [path]:
    makes the folder and the folders above it that are missing. No part
    of [path] is taken to be a regular file and the folders are taken to
    be writable, so that the call returns. *)
Definition makedirs (path : string) : io unit :=
  fun w => (Ok tt, World (files w)
                         ({[path]} ∪ list_to_set (Path.parents path) ∪ dirs w)
                         (events w)).

End Os.

(** ** What [predict.py] imports

    The classifier and the loader ([torch]), the clip reader
    ([utils.utils.AudioList]), the signal processing behind
    [utils.audio_signal.AudioSignal], [np.exp], [np.mean] and the clock
    are not part of [predict.py]: the pipeline is stated over any
    implementation of them. *)

Class External : Type := {
  (** what the loader yields at each turn: one batch of clips *)
  array : Type;
  tensor : Type;
  dataset : Type;
  (** [torch.tensor(array)] on the CPU, [array] itself elsewhere, then
      [.to(device)] *)
  to_device : string -> array -> tensor;
  (** [model(tensor).cpu().detach().numpy()]: one row of log-probabilities
      per clip of the batch *)
  model_forward : tensor -> matrix;
  (** [np.exp] on one entry of an array of the given dtype *)
  np_exp : dtype -> spec_float -> spec_float;
  np_mean : ndarray -> np_float;
  (** the filtering done by [AudioSignal.apply_butterworth_filter], on the
      samples, from the order and the normalised band edges *)
  butterworth : Z -> list spec_float -> array -> array;
  (** the per-frame periodicity scores of [AudioSignal.harmonic_ratio],
      from the samples, the sampling rate, the frame length and the hop in
      samples, and the name of the window *)
  frame_scores : array -> Z -> Z -> Z -> string -> ndarray;
  (** [AudioList().get_processed_list(file_path)] *)
  get_processed_list : string -> dataset;
  (** [DataLoader(list_preds, batch_size, num_workers, pin_memory=False)],
      iterated *)
  DataLoader : dataset -> Z -> Z -> list array;
  (** the elapsed seconds of a run, formatted by [{:.2f}] *)
  delta_time : string
}.

Section Pipeline.
Context `{NumpyVersion} `{External}.

(** *** [AudioSignal]: the samples and the sampling rate *)

Record AudioSignal : Type := MkAudioSignal {
  samples : array;
  fs : Z
}.

(** [signal.apply_butterworth_filter(order, Wn)]: filters in place. *)
Definition apply_butterworth_filter (order : Z) (Wn : list spec_float)
  (signal : AudioSignal) : AudioSignal :=
  MkAudioSignal (butterworth order Wn (samples signal)) (fs signal).

(** [signal.harmonic_ratio(win_length, hop_length, window)]. *)
Definition harmonic_ratio (signal : AudioSignal) (win_length hop_length : Z)
  (window : string) : ndarray :=
  frame_scores (samples signal) (fs signal) win_length hop_length window.

(** *** [compute_hr] *)

Definition compute_hr (a : array) : result np_float :=
  let signal := MkAudioSignal a 44100 in
  let nyquist := Float.div (Float.of_Z (fs signal)) (Float.of_Z 2) in
  let Wn := map (fun edge => Float.div (Float.of_Z edge) nyquist) [1; 600] in
  let signal := apply_butterworth_filter 18 Wn signal in
  let win_length := 1 * fs signal in
  let* hop_length := Float.to_int (Float.mul Float.lit_0_1 (Float.of_Z (fs signal))) in
  let signal_hr := harmonic_ratio signal win_length hop_length "hamming" in
  let hr := np_mean signal_hr in
  Ok hr.

(** *** [predict] *)

(** [np.exp(output)]: entry by entry, in the dtype of [output]. *)
Definition exp_all (output : matrix) : matrix :=
  Matrix (matrix_dtype output)
         (map (map (np_exp (matrix_dtype output))) (matrix_rows output)).

(** [output[0]]. *)
Definition first_row (output : matrix) : result ndarray :=
  match matrix_rows output with
  | row :: _ => Ok (NdArray (matrix_dtype output) row)
  | [] => Raise (IndexError "index 0 is out of bounds for axis 0 with size 0")
  end.

(** The [for array in testLoader] loop, with the two lists it appends to. *)
Fixpoint predict_loop (testLoader : list array) (device : string)
  (threshold : spec_float) (proba_list : list ndarray)
  (hr_list : list scalar)
  : result (list ndarray * list scalar) :=
  match testLoader with
  | [] => Ok (proba_list, hr_list)
  | a :: rest =>
      let tensor := to_device device a in
      let output := exp_all (model_forward tensor) in
      let* output0 := first_row output in
      let proba_list := proba_list ++ [output0] in
      let* max_value := Np.amax output0 in
      let* hr_list :=
        if np_ge max_value threshold
        then (let* hr := compute_hr a in Ok (hr_list ++ [NpScalar hr]))
        else Ok (hr_list ++ [PyInt 0]) in
      predict_loop rest device threshold proba_list hr_list
  end.

Definition predict (testLoader : list array) (device : string)
  (threshold : spec_float) : result (list ndarray * list scalar) :=
  predict_loop testLoader device threshold [] [].

(** The default of [predict]'s [threshold] argument. *)
Definition threshold_default : spec_float := Float.lit_0_99.

(** *** [get_outname] *)

(** [os.sep] is ["/"]; [filename[0:-1]] is the list without its last
    entry; [os.makedirs(outpath, exist_ok=True)] runs only when nothing is
    at [outpath]. *)
Definition get_outname (input out_path : string) : io string :=
  let filename := Str.split "."%char (List.last (Str.split "/"%char input) EmptyString) in
  let filename :=
    if (2 <? length filename)%nat
    then Str.join "." (removelast filename)
    else hd EmptyString
           (Str.split "."%char (List.last (Str.split "/"%char input) EmptyString)) in
  let outpath := Str.join (String Path.sep EmptyString) [out_path; Path.dirname input] in
  let! there := Os.path_exists outpath in
  let! _ := if negb there then Os.makedirs outpath else ret tt in
  let file_path := Path.join outpath (filename +:+ ".csv") in
  ret file_path.

(** *** [write_results] *)

Definition header : csv_row :=
  [CStr "start_detection"; CStr "end_detection"; CStr "label";
   CStr "confidence"; CStr "hr"].

(** The body of the [for item_audioclip, item_hr in zip(...)] loop, on the
    two variables that live across iterations. The write and the notice
    are part of the body, as in the source. *)
Definition write_results_body (outname : string) (min_hr min_conf : spec_float)
  (rows_for_csv : list csv_row) (idx_begin : Z)
  (item_audioclip : ndarray) (item_hr : scalar)
  : io (list csv_row * Z) :=
  let idx_end := idx_begin + 3 in
  let conf := item_audioclip in
  let! label := lift (Np.argmax (arr_values conf)) in
  let! max_value := lift (Np.amax conf) in
  let hr := item_hr in
  let rows_for_csv :=
    if negb (Nat.eqb label 0) && hr_gt hr min_hr && np_gt max_value min_conf
    then rows_for_csv ++ [[CInt idx_begin; CInt idx_end; CInt (Z.of_nat label);
                           CFloat (np_value max_value); hr_cell hr]]
    else rows_for_csv in
  let idx_begin := idx_end in
  let! _ :=
    if (0 <? length rows_for_csv)%nat
    then Os.write_csv outname (header :: rows_for_csv)
    else
      let file_analyzed := Path.basename outname in
      let message := "No detection has been made for " +:+ file_analyzed in
      let! _ := Os.print message in
      Os.logging_info message in
  ret (rows_for_csv, idx_begin).

(** The loop over [zip(prob_audioclip_array, hr_array)]: it stops at the
    end of the shorter list. *)
Fixpoint write_results_loop (outname : string) (min_hr min_conf : spec_float)
  (prob_audioclip_array : list ndarray) (hr_array : list scalar)
  (rows_for_csv : list csv_row) (idx_begin : Z) : io (list csv_row * Z) :=
  match prob_audioclip_array, hr_array with
  | item_audioclip :: probs, item_hr :: hrs =>
      let! st := write_results_body outname min_hr min_conf rows_for_csv idx_begin
                   item_audioclip item_hr in
      write_results_loop outname min_hr min_conf probs hrs (fst st) (snd st)
  | _, _ => ret (rows_for_csv, idx_begin)
  end.

Definition write_results (prob_audioclip_array : list ndarray)
  (hr_array : list scalar) (outname : string) (min_hr min_conf : spec_float)
  : io unit :=
  let! _ := write_results_loop outname min_hr min_conf prob_audioclip_array
              hr_array [] 0 in
  ret tt.

(** *** [analyzeFile] *)

Definition analyzeFile (file_path : string) (device : string) (num_workers : Z)
  (min_hr min_conf : spec_float) (batch_size : Z) : io unit :=
  let input_dir := Path.dirname file_path in
  let result_folder := Path.join input_dir "SNOWMOBILE_RESULTS" in
  let! folder_there := Os.path_exists result_folder in
  let! _ := if negb folder_there then Os.makedirs result_folder else ret tt in
  let outname :=
    hd EmptyString (Str.split "."%char (List.last (Str.split "/"%char file_path) EmptyString))
    +:+ "_ANALYZED.csv" in
  let outpath := Path.join result_folder outname in
  let! already := Os.path_exists outname in
  if already then
    Os.print ("File " +:+ outname +:+ " already exists")
  else
    let list_preds := get_processed_list file_path in
    let predLoader := DataLoader list_preds batch_size num_workers in
    let! preds := lift (predict predLoader device threshold_default) in
    let pred_audioclip_array := fst preds in
    let pred_hr_array := snd preds in
    let! _ := write_results pred_audioclip_array pred_hr_array outpath min_hr min_conf in
    let message := "Finished " +:+ file_path +:+ " in " +:+ delta_time +:+ " seconds" in
    let! _ := Os.print message in
    Os.logging_info message.

End Pipeline.

(** ** Vocabulary of the statements *)

(** The clip duration in seconds: the literal of [idx_end = idx_begin + 3]. *)
Definition clip_duration : Z := 3.

(** The columns of a row of the report, by the position the header gives
    them. *)
Definition start_detection (r : csv_row) : option Z :=
  match r with
  | CInt z :: _ => Some z
  | _ => None
  end.

Definition end_detection (r : csv_row) : option Z :=
  match r with
  | _ :: CInt z :: _ => Some z
  | _ => None
  end.

(** The rows of a report are in chronological order. *)
Definition chronological (r1 r2 : csv_row) : Prop :=
  exists a b, start_detection r1 = Some a /\ start_detection r2 = Some b /\ a <= b.

(** The names [analyzeFile] derives from [file_path]: the folder of the
    results, the name of the report and the path the report is written
    at. *)
Definition result_folder_of (file_path : string) : string :=
  Path.join (Path.dirname file_path) "SNOWMOBILE_RESULTS".

Definition outname_of (file_path : string) : string :=
  hd EmptyString (Str.split "."%char (List.last (Str.split "/"%char file_path) EmptyString))
  +:+ "_ANALYZED.csv".

Definition outpath_of (file_path : string) : string :=
  Path.join (result_folder_of file_path) (outname_of file_path).

(** [os.path.exists(path)] in a world. *)
Definition exists_in (w : world) (path : string) : bool :=
  bool_decide (is_Some (files w !! path)) || bool_decide (path ∈ dirs w).

(** The world once [analyzeFile] has made sure the folder of the results
    is there. *)
Definition with_result_folder (file_path : string) (w : world) : world :=
  if exists_in w (result_folder_of file_path) then w
  else snd (Os.makedirs (result_folder_of file_path) w).

(** The last line of a run of [analyzeFile] that was not skipped. *)
Definition finished_message `{External} (file_path : string) : string :=
  "Finished " +:+ file_path +:+ " in " +:+ delta_time +:+ " seconds".

(** [w'] comes from [w] by writing at [outname], printing and logging,
    and by nothing else: the folders are the same, every other file is as
    it was, no file is gone and the events of [w] are still there, in
    front. *)
Definition only_writes_at (outname : string) (w w' : world) : Prop :=
  dirs w' = dirs w
  /\ (forall p, p <> outname -> files w' !! p = files w !! p)
  /\ (forall p, is_Some (files w !! p) -> is_Some (files w' !! p))
  /\ exists evs, events w' = events w ++ evs.

(** The notice of [write_results] for the destination [outname]. *)
Definition no_detection_message (outname : string) : string :=
  "No detection has been made for " +:+ Path.basename outname.

(** A loader item the classifier can be read on: the exponentiated output
    has a first row, and that row is not empty. *)
Definition readable `{External} (device : string) (a : array) : Prop :=
  exists row, first_row (exp_all (model_forward (to_device device a))) = Ok row
              /\ arr_values row <> [].

(** What [predict] records for one clip: the exponentiated first row of
    the classifier's output, and the harmonic ratio, computed when the
    largest probability reaches the threshold and the sentinel otherwise. *)
Definition recorded `{NumpyVersion} `{External} (device : string)
  (threshold : spec_float) (a : array) (conf : ndarray) (hr : scalar) : Prop :=
  first_row (exp_all (model_forward (to_device device a))) = Ok conf
  /\ exists mx, Np.amax conf = Ok mx
     /\ (np_ge mx threshold = true -> exists h, compute_hr a = Ok h /\ hr = NpScalar h)
     /\ (np_ge mx threshold = false -> hr = PyInt 0).

(** ** A small implementation of the imports, to run the pipeline on

    A clip carries the classifier's output for it, in float32 (tabulated
    after exponentiation, so the stand-in for [np.exp] leaves it as it
    is), and its periodicity score, in float64; every file holds the same
    three clips. *)

Module Demo.

(** Python floats. *)
Definition f0_995 : spec_float := S754_finite false 8962163258467287 (-53).
Definition f0_5 : spec_float := S754_finite false 4503599627370496 (-53).
Definition f0_25 : spec_float := S754_finite false 4503599627370496 (-54).
Definition f0_15 : spec_float := S754_finite false 5404319552844595 (-55).
Definition f0_05 : spec_float := S754_finite false 7205759403792794 (-57).
Definition f0_9899 : spec_float := S754_finite false 8916226542268108 (-53).
Definition minus_0_1 : spec_float := S754_finite true 7205759403792794 (-56).
Definition f0_7 : spec_float := S754_finite false 6305039478318694 (-53).

(** The float32 nearest to 0.995, 0.99, 0.0025, 0.01, 0.5, 0.25, 0.7 and
    0.05. *)
Definition p0_995 : spec_float := S754_finite false 16693330 (-24).
Definition p0_99 : spec_float := S754_finite false 16609444 (-24).
Definition p0_0025 : spec_float := S754_finite false 10737418 (-32).
Definition p0_01 : spec_float := S754_finite false 10737418 (-30).
Definition p0_5 : spec_float := S754_finite false 8388608 (-24).
Definition p0_25 : spec_float := S754_finite false 8388608 (-25).
Definition p0_7 : spec_float := S754_finite false 11744051 (-24).
Definition p0_05 : spec_float := S754_finite false 13421773 (-28).

(** The probabilities of a clip, by kind of clip. *)
Definition background_probs : ndarray := NdArray Float32 [p0_5; p0_25; p0_25].
Definition engine_probs : ndarray := NdArray Float32 [p0_0025; p0_0025; p0_995].
Definition faint_probs : ndarray := NdArray Float32 [p0_25; p0_5; p0_25].
Definition borderline_probs : ndarray := NdArray Float32 [p0_05; p0_25; p0_7].
(** label 1 at the float32 nearest to 0.99, which is above 0.99. *)
Definition boundary_probs : ndarray := NdArray Float32 [p0_01; p0_99].

(** A harmonic ratio as [np.mean] gives it. *)
Definition hr_of (x : spec_float) : scalar := NpScalar (NpFloat Float64 x).

Definition clip : Type := list (list spec_float) * spec_float.

(** label 0 at 0.50: background. *)
Definition background : clip := ([[p0_5; p0_25; p0_25]], f0_15).
(** label 2 at 0.995 with a harmonic ratio of 0.15. *)
Definition engine : clip := ([[p0_0025; p0_0025; p0_995]], f0_15).
(** label 2 at 0.995 with a harmonic ratio of 0.05. *)
Definition broadband : clip := ([[p0_0025; p0_0025; p0_995]], f0_05).
(** label 1 at 0.50, below the threshold of 0.99. *)
Definition faint : clip := ([[p0_25; p0_5; p0_25]], f0_15).
(** label 2 at the float32 nearest to 0.7, which is below 0.7. *)
Definition borderline : clip := ([[p0_05; p0_25; p0_7]], f0_15).

Definition ext : External := {|
  array := clip;
  tensor := clip;
  dataset := list clip;
  to_device := fun _ a => a;
  model_forward := fun t => Matrix Float32 (fst t);
  np_exp := fun _ x => x;
  np_mean := fun scores => NpFloat Float64 (hd Float.zero (arr_values scores));
  butterworth := fun _ _ a => a;
  frame_scores := fun a _ _ _ _ => NdArray Float64 [snd a];
  get_processed_list := fun _ => [background; engine; broadband];
  DataLoader := fun d _ _ => d;
  delta_time := "0.01"
|}.

(** The two NumPy rules. *)
Definition numpy1 : NumpyVersion := {| promotion_rule := Legacy |}.
Definition numpy2 : NumpyVersion := {| promotion_rule := WeakScalars |}.

(** What [predict] hands to [write_results] for the three clips. *)
Definition probs : list ndarray := [background_probs; engine_probs; engine_probs].
Definition hrs : list scalar := [PyInt 0; hr_of f0_15; hr_of f0_05].

(** A world with nothing in it, one where a report of an earlier run is
    at its destination, and one where a file of the report's bare name
    lies in the working directory. *)
Definition empty_world : world := World ∅ ∅ [].

(** Nothing but the folder [out]. *)
Definition out_world : world := World ∅ {[ "out"%string ]} [].

Definition old_report : list csv_row :=
  [header; [CInt 0; CInt 3; CInt 1; CFloat p0_995; CFloat f0_15]].

Definition analysed_world : world :=
  World {[ "data/SNOWMOBILE_RESULTS/rec_ANALYZED.csv"%string := old_report ]}
        {[ "data"%string; "data/SNOWMOBILE_RESULTS"%string ]} [].

Definition stray_world : world :=
  World {[ "rec_ANALYZED.csv"%string := [] ]} {[ "data"%string ]} [].

(** The same imports with a classifier that gives no row for the one clip
    of every file. *)
Definition ext_unreadable : External := {|
  array := clip;
  tensor := clip;
  dataset := list clip;
  to_device := fun _ a => a;
  model_forward := fun t => Matrix Float32 (fst t);
  np_exp := fun _ x => x;
  np_mean := fun scores => NpFloat Float64 (hd Float.zero (arr_values scores));
  butterworth := fun _ _ a => a;
  frame_scores := fun a _ _ _ _ => NdArray Float64 [snd a];
  get_processed_list := fun _ => [([], f0_15)];
  DataLoader := fun d _ _ => d;
  delta_time := "0.01"
|}.

End Demo.

(** The gate of [write_results] on one clip, and the rows the loop
    appends from [idx] on, read off the loop as a function of its input. *)
Definition qualifies `{NumpyVersion} (min_hr min_conf : spec_float) (label : nat)
  (hr : scalar) (max_value : np_float) : bool :=
  negb (Nat.eqb label 0) && hr_gt hr min_hr && np_gt max_value min_conf.

Fixpoint detections `{NumpyVersion} (min_hr min_conf : spec_float)
  (probs : list ndarray) (hrs : list scalar) (idx : Z)
  : list csv_row :=
  match probs, hrs with
  | conf :: probs', hr :: hrs' =>
      match Np.argmax (arr_values conf), Np.max (arr_values conf) with
      | Ok label, Ok max_value =>
          (if qualifies min_hr min_conf label hr (NpFloat (arr_dtype conf) max_value)
           then [[CInt idx; CInt (idx + 3); CInt (Z.of_nat label);
                  CFloat max_value; hr_cell hr]]
           else [])
          ++ detections min_hr min_conf probs' hrs' (idx + 3)
      | _, _ => []
      end
  | _, _ => []
  end.

(** The notices of [n] iterations that found nothing. *)
Fixpoint notices (outname : string) (n : nat) : list event :=
  match n with
  | O => []
  | S n' => Printed (no_detection_message outname)
            :: LoggedInfo (no_detection_message outname)
            :: notices outname n'
  end.

(** ** Rounding, step by step

    What [binary_round] does to the mantissa of a binary64 on the way to
    float32, on integers: the statements on the order of rounded values
    are made with these. *)

Module Shift.

(** A shift record as a number: the mantissa, then the round bit, then
    the sticky bit. *)
Definition enc (r : shr_record) : Z :=
  4 * shr_m r + 2 * Z.b2z (shr_r r) + Z.b2z (shr_s r).

(** One shift to the right, and the rounding to nearest even, on that
    number. *)
Definition step (x : Z) : Z := 2 * (x / 4) + Z.min 1 (x mod 4).

Definition nearest_even (x : Z) : Z := (x + (x / 4) mod 2 + 1) / 4.

(** The mantissa [m] shifted by [k] and rounded. *)
Definition rounded (k : nat) (m : Z) : Z := nearest_even (Nat.iter k step (4 * m)).

End Shift.

Module ToFloat32.

(** The shift that takes a binary64 of exponent [e] to float32. *)
Definition shift (e : Z) : Z := Z.max 29 (-149 - e).

(** The float32 of sign [s] for a rounded mantissa [m] at exponent [E]:
    a mantissa of 25 digits is brought back to 24, and an exponent
    beyond the largest one gives the infinity. *)
Definition finish (s : bool) (m E : Z) : spec_float :=
  let m2 := if m =? 16777216 then 8388608 else m in
  let E2 := if m =? 16777216 then E + 1 else E in
  match m2 with
  | Z0 => S754_zero s
  | Zpos p => if E2 <=? 104 then S754_finite s p E2 else S754_infinity s
  | Zneg _ => S754_nan
  end.

End ToFloat32.

(** A rounded mantissa and its exponent, before [ToFloat32.finish]: at most
    [2 ^ 24], and at least [2 ^ 23] above the smallest exponent. *)
Definition canonical32 (m E : Z) : Prop :=
  0 <= m <= 16777216 /\ -149 <= E /\ (-149 < E -> 8388608 <= m).

(** The floats of one sign. *)
Definition signed (s : bool) (x : spec_float) : Prop :=
  x = S754_zero s \/ x = S754_infinity s \/ exists m e, x = S754_finite s m e.

(** * Properties *)

(** ** The order of floats *)

Lemma compare_cont_Eq m1 m2 : Pos.compare_cont Eq m1 m2 = Pos.compare m1 m2.
Proof. reflexivity. Qed.

Ltac sf_cases :=
  repeat match goal with
  | H : context [Z.compare ?a ?b] |- _ => destruct (Z.compare_spec a b)
  | |- context [Z.compare ?a ?b] => destruct (Z.compare_spec a b)
  | H : context [Pos.compare ?a ?b] |- _ => destruct (Pos.compare_spec a b)
  | |- context [Pos.compare ?a ?b] => destruct (Pos.compare_spec a b)
  end.

Ltac sf_crush :=
  unfold SFleb, SFltb, SFcompare, Float.zero; intros;
  repeat match goal with
  | x : spec_float |- _ => destruct x
  | b : bool |- _ => destruct b
  end;
  cbn [Float.is_nan] in *; try rewrite !compare_cont_Eq in *;
  try congruence; try reflexivity;
  sf_cases; cbn [CompOpp] in *; try congruence; try reflexivity; try lia.

Lemma SFltb_irrefl x : SFltb x x = false.
Proof. sf_crush. Qed.

Lemma SFleb_refl x : Float.is_nan x = false -> SFleb x x = true.
Proof. sf_crush. Qed.

Lemma SFleb_total x y :
  Float.is_nan x = false -> Float.is_nan y = false ->
  SFleb x y = false -> SFleb y x = true.
Proof. sf_crush. Qed.

Lemma SFleb_trans x y z : SFleb x y = true -> SFleb y z = true -> SFleb x z = true.
Proof. sf_crush. Qed.

Lemma SFltb_not_nan a b : SFltb a b = true -> Float.is_nan b = false.
Proof. sf_crush. Qed.

Lemma SFleb_nan_l a b : Float.is_nan a = true -> SFleb a b = false.
Proof. sf_crush. Qed.

(** The sentinel is not above a threshold that is at least zero. *)
Lemma sentinel_not_above m : SFleb Float.zero m = true -> SFltb m Float.zero = false.
Proof. sf_crush. Qed.

(** ** Rounding a Python float keeps the order *)

Lemma enc_shr_1 (r : shr_record) :
  0 <= shr_m r -> Shift.enc (shr_1 r) = Shift.step (Shift.enc r) /\ 0 <= shr_m (shr_1 r).
Proof.
  destruct r as [m r s]. unfold Shift.enc, Shift.step. cbn [shr_m shr_r shr_s].
  intros Hm. destruct m as [|[p|p|]|p]; try lia;
    cbn [shr_1 shr_m shr_r shr_s];
    try change (Z.pos p~1) with (2 * Z.pos p + 1);
    try change (Z.pos p~0) with (2 * Z.pos p);
    destruct r, s; cbn [orb Z.b2z]; (split; [Z.div_mod_to_equations; lia | lia]).
Qed.

Lemma nearest_even_enc (r : shr_record) :
  0 <= shr_m r ->
  round_nearest_even (shr_m r) (loc_of_shr_record r) = Shift.nearest_even (Shift.enc r).
Proof.
  destruct r as [m r s]. unfold Shift.enc, Shift.nearest_even. cbn [shr_m shr_r shr_s].
  intros Hm.
  destruct r, s; cbn [Z.b2z loc_of_shr_record round_nearest_even];
    try (Z.div_mod_to_equations; lia).
  destruct (Z.even m) eqn:He.
  - apply Z.even_spec in He as [q ->]. Z.div_mod_to_equations. lia.
  - assert (Ho : Z.odd m = true) by (rewrite <- Z.negb_even, He; reflexivity).
    apply Z.odd_spec in Ho as [q ->]. Z.div_mod_to_equations. lia.
Qed.

Lemma iter_pos_nat {A} (f : A -> A) (p : positive) : forall x,
  SpecFloat.iter_pos f p x = Nat.iter (Pos.to_nat p) f x.
Proof.
  induction p as [p IH|p IH|]; intros x; cbn [SpecFloat.iter_pos].
  - rewrite !IH, Pos2Nat.inj_xI.
    replace (S (2 * Pos.to_nat p)) with (Pos.to_nat p + (Pos.to_nat p + 1))%nat by lia.
    rewrite !Nat.iter_add. reflexivity.
  - rewrite !IH, Pos2Nat.inj_xO.
    replace (2 * Pos.to_nat p)%nat with (Pos.to_nat p + Pos.to_nat p)%nat by lia.
    rewrite Nat.iter_add. reflexivity.
  - reflexivity.
Qed.

Lemma enc_iter_shr_1 (k : nat) (r : shr_record) :
  0 <= shr_m r ->
  Shift.enc (Nat.iter k shr_1 r) = Nat.iter k Shift.step (Shift.enc r)
  /\ 0 <= shr_m (Nat.iter k shr_1 r).
Proof.
  intros Hm. induction k as [|k [IHe IHm]]; [split; [reflexivity | exact Hm]|].
  change (Nat.iter (S k) shr_1 r) with (shr_1 (Nat.iter k shr_1 r)).
  change (Nat.iter (S k) Shift.step (Shift.enc r))
    with (Shift.step (Nat.iter k Shift.step (Shift.enc r))).
  destruct (enc_shr_1 _ IHm) as [He Hm']. rewrite He, IHe. auto.
Qed.

Lemma step_mono x y : 0 <= x -> x <= y -> Shift.step x <= Shift.step y.
Proof. unfold Shift.step. intros. Z.div_mod_to_equations. lia. Qed.

Lemma step_bounds x : 0 <= x -> 0 <= Shift.step x <= x.
Proof. unfold Shift.step. intros. Z.div_mod_to_equations. lia. Qed.

Lemma iter_step_bounds (k : nat) x : 0 <= x -> 0 <= Nat.iter k Shift.step x <= x.
Proof.
  intros Hx. induction k as [|k IH]; [cbn; lia|].
  change (Nat.iter (S k) Shift.step x) with (Shift.step (Nat.iter k Shift.step x)).
  pose proof (step_bounds _ (proj1 IH)). lia.
Qed.

Lemma iter_step_mono (k : nat) x y :
  0 <= x -> x <= y -> Nat.iter k Shift.step x <= Nat.iter k Shift.step y.
Proof.
  intros Hx Hxy. induction k as [|k IH]; [exact Hxy|].
  change (Nat.iter (S k) Shift.step ?z) with (Shift.step (Nat.iter k Shift.step z)).
  apply step_mono; [apply iter_step_bounds; exact Hx | exact IH].
Qed.

Lemma nearest_even_mono x y :
  0 <= x -> x <= y -> Shift.nearest_even x <= Shift.nearest_even y.
Proof. unfold Shift.nearest_even. intros. Z.div_mod_to_equations. lia. Qed.

Lemma nearest_even_nonneg x : 0 <= x -> 0 <= Shift.nearest_even x.
Proof. unfold Shift.nearest_even. intros. Z.div_mod_to_equations. lia. Qed.

Lemma nearest_even_exact y : Shift.nearest_even (4 * y) = y.
Proof. unfold Shift.nearest_even. Z.div_mod_to_equations. lia. Qed.

Lemma nearest_even_small x : 0 <= x <= 2 -> Shift.nearest_even x = 0.
Proof. unfold Shift.nearest_even. intros. Z.div_mod_to_equations. lia. Qed.

Lemma rounded_mono (k : nat) m m' :
  0 <= m -> m <= m' -> Shift.rounded k m <= Shift.rounded k m'.
Proof.
  intros Hm Hmm. unfold Shift.rounded.
  apply nearest_even_mono; [apply iter_step_bounds; lia|].
  apply iter_step_mono; lia.
Qed.

Lemma rounded_nonneg (k : nat) m : 0 <= m -> 0 <= Shift.rounded k m.
Proof.
  intros Hm. apply nearest_even_nonneg. apply iter_step_bounds. lia.
Qed.

Lemma iter_step_pow2 (k : nat) (j : Z) :
  Z.of_nat k <= j ->
  Nat.iter k Shift.step (4 * 2 ^ j) = 4 * 2 ^ (j - Z.of_nat k).
Proof.
  induction k as [|k IH]; intros Hk.
  - cbn [Nat.iter nat_rect]. rewrite Z.sub_0_r. reflexivity.
  - change (Nat.iter (S k) Shift.step ?z) with (Shift.step (Nat.iter k Shift.step z)).
    rewrite IH by lia.
    replace (j - Z.of_nat k) with (Z.succ (j - Z.of_nat (S k))) by lia.
    rewrite Z.pow_succ_r by lia.
    generalize (2 ^ (j - Z.of_nat (S k))). intros y.
    unfold Shift.step. Z.div_mod_to_equations. lia.
Qed.

(** A power of two, shifted and rounded: a power of two, or 0 when it is
    shifted out ([2 ^ n] is 0 for a negative [n]). *)
Lemma rounded_pow2 (k : nat) (j : Z) :
  0 <= j -> Shift.rounded k (2 ^ j) = 2 ^ (j - Z.of_nat k).
Proof.
  intros Hj. unfold Shift.rounded.
  destruct (Z_le_gt_dec (Z.of_nat k) j) as [Hle|Hgt].
  - rewrite iter_step_pow2 by exact Hle. apply nearest_even_exact.
  - rewrite (Z.pow_neg_r 2 (j - Z.of_nat k)) by lia.
    replace k with ((k - Z.to_nat j - 1) + (1 + Z.to_nat j))%nat by lia.
    rewrite Nat.iter_add, Nat.iter_add.
    assert (Hj' : Nat.iter (Z.to_nat j) Shift.step (4 * 2 ^ j) = 4).
    { rewrite iter_step_pow2 by lia.
      replace (j - Z.of_nat (Z.to_nat j)) with 0 by lia. reflexivity. }
    rewrite Hj'. change (Nat.iter 1 Shift.step 4) with 2.
    apply nearest_even_small. apply (iter_step_bounds _ 2). lia.
Qed.

Lemma digits2_pos_bounds (p : positive) :
  2 ^ (Z.pos (digits2_pos p) - 1) <= Z.pos p < 2 ^ Z.pos (digits2_pos p).
Proof.
  induction p as [p IH|p IH|]; cbn [digits2_pos];
    rewrite ?Pos2Z.inj_succ.
  - replace (Z.succ (Z.pos (digits2_pos p)) - 1)
      with (Z.succ (Z.pos (digits2_pos p) - 1)) by lia.
    rewrite !Z.pow_succ_r by lia. change (Z.pos p~1) with (2 * Z.pos p + 1). lia.
  - replace (Z.succ (Z.pos (digits2_pos p)) - 1)
      with (Z.succ (Z.pos (digits2_pos p) - 1)) by lia.
    rewrite !Z.pow_succ_r by lia. change (Z.pos p~0) with (2 * Z.pos p). lia.
  - cbn. lia.
Qed.

Lemma Zdigits2_le (m n : Z) : 0 <= n -> 0 <= m < 2 ^ n -> Zdigits2 m <= n.
Proof.
  intros Hn [Hm Hlt]. destruct m as [|p|p]; [exact Hn | | lia].
  cbn [Zdigits2]. pose proof (digits2_pos_bounds p) as [Hlo _].
  assert (Hpow : 2 ^ (Z.pos (digits2_pos p) - 1) < 2 ^ n) by lia.
  apply Z.pow_lt_mono_r_iff in Hpow; lia.
Qed.

(** The exponent of float32 for a number of [e] binary digits above the
    point, and its smallest exponent. *)
Lemma fexp32 (e : Z) : fexp 24 128 e = Z.max (e - 24) (-149).
Proof. reflexivity. Qed.

Lemma fexp64 (e : Z) : fexp 53 1024 e = Z.max (e - 53) (-1074).
Proof. reflexivity. Qed.

(** A binary64 mantissa and exponent: the mantissa has 53 binary digits,
    or the exponent is the smallest one. *)
Lemma bounded64 (m : positive) (e : Z) :
  bounded 53 1024 m e = true ->
  (Z.pos (digits2_pos m) = 53 \/ e = -1074 /\ Z.pos (digits2_pos m) <= 53)
  /\ -1074 <= e <= 971.
Proof.
  unfold bounded, canonical_mantissa. rewrite fexp64.
  intros H. apply andb_true_iff in H as [Hc He].
  apply Z.eqb_eq in Hc. apply Z.leb_le in He. change (1024 - 53) with 971 in He. lia.
Qed.

Lemma rounded_le_pow2 (k : nat) (m j : Z) :
  0 <= j -> 0 <= m <= 2 ^ j -> Shift.rounded k m <= 2 ^ (j - Z.of_nat k).
Proof.
  intros Hj [Hm Hle]. rewrite <- (rounded_pow2 k j Hj). apply rounded_mono; assumption.
Qed.

Lemma rounded_ge_pow2 (k : nat) (m j : Z) :
  0 <= j -> 2 ^ j <= m -> 2 ^ (j - Z.of_nat k) <= Shift.rounded k m.
Proof.
  intros Hj Hle. rewrite <- (rounded_pow2 k j Hj).
  apply rounded_mono; [apply Z.pow_nonneg; lia | exact Hle].
Qed.

(** The mantissa of a binary64 rounded to float32 has at most 24 digits,
    or is [2 ^ 24]. *)
Lemma rounded32_bounds (m : positive) (e : Z) :
  bounded 53 1024 m e = true ->
  0 <= Shift.rounded (Z.to_nat (ToFloat32.shift e)) (Z.pos m) <= 16777216.
Proof.
  intros Hb. destruct (bounded64 m e Hb) as [Hd He].
  pose proof (digits2_pos_bounds m) as [_ Hhi].
  assert (Hm : Z.pos m <= 2 ^ 53).
  { assert (2 ^ Z.pos (digits2_pos m) <= 2 ^ 53) by (apply Z.pow_le_mono_r; lia). lia. }
  split; [apply rounded_nonneg; lia|].
  etransitivity; [apply (rounded_le_pow2 _ _ 53); lia|].
  change 16777216 with (2 ^ 24).
  destruct (Z_lt_le_dec (53 - Z.of_nat (Z.to_nat (ToFloat32.shift e))) 0) as [Hneg|Hpos].
  - rewrite Z.pow_neg_r by exact Hneg. lia.
  - apply Z.pow_le_mono_r; [lia|]. unfold ToFloat32.shift in *. lia.
Qed.

(** [binary_round] to float32 on a binary64, as one shift and one
    rounding. *)
Lemma round32_of_binary64 (s : bool) (m : positive) (e : Z) :
  bounded 53 1024 m e = true ->
  binary_round 24 128 s m e
  = ToFloat32.finish s (Shift.rounded (Z.to_nat (ToFloat32.shift e)) (Z.pos m))
      (e + ToFloat32.shift e).
Proof.
  intros Hb. pose proof (rounded32_bounds m e Hb) as Hm'.
  destruct (bounded64 m e Hb) as [Hd He].
  assert (Hk : fexp 24 128 (Z.pos (digits2_pos m) + e) - e = ToFloat32.shift e)
    by (rewrite fexp32; unfold ToFloat32.shift; lia).
  assert (Hkpos : 29 <= ToFloat32.shift e) by (unfold ToFloat32.shift; lia).
  unfold binary_round, shl_align. rewrite Hk.
  destruct (ToFloat32.shift e) as [|k|k] eqn:Hshift; try lia.
  unfold binary_round_aux, shr_fexp at 1. cbn [Zdigits2]. rewrite Hk.
  cbn [shr shr_record_of_loc]. rewrite iter_pos_nat.
  set (r0 := {| shr_m := Z.pos m; shr_r := false; shr_s := false |}).
  destruct (enc_iter_shr_1 (Pos.to_nat k) r0 ltac:(cbn; lia)) as [Henc Hnn].
  rewrite (nearest_even_enc _ Hnn), Henc.
  change (Shift.enc r0) with (4 * Z.pos m + 2 * 0 + 0).
  replace (4 * Z.pos m + 2 * 0 + 0) with (4 * Z.pos m) by lia.
  change (Z.to_nat (Z.pos k)) with (Pos.to_nat k) in Hm' |- *.
  fold (Shift.rounded (Pos.to_nat k) (Z.pos m)).
  set (m' := Shift.rounded (Pos.to_nat k) (Z.pos m)) in *.
  set (E := e + Z.pos k).
  assert (HE : -149 <= E) by (unfold E, ToFloat32.shift in *; lia).
  unfold shr_fexp, ToFloat32.finish. rewrite fexp32.
  destruct (Z.eqb_spec m' 16777216) as [->|Hne].
  - change (Zdigits2 16777216) with 25.
    replace (Z.max (25 + E - 24) (-149) - E) with 1 by lia.
    reflexivity.
  - assert (Hdig : Zdigits2 m' <= 24) by (apply Zdigits2_le; lia).
    destruct (Z.max (Zdigits2 m' + E - 24) (-149) - E) as [|q|q] eqn:Hshift2;
      [reflexivity | lia | reflexivity].
Qed.

Lemma rounded32_canonical (m : positive) (e : Z) :
  bounded 53 1024 m e = true ->
  canonical32 (Shift.rounded (Z.to_nat (ToFloat32.shift e)) (Z.pos m)) (e + ToFloat32.shift e).
Proof.
  intros Hb. split; [exact (rounded32_bounds m e Hb)|].
  destruct (bounded64 m e Hb) as [Hd He].
  split; [unfold ToFloat32.shift; lia|]. intros HE.
  assert (Hshift : ToFloat32.shift e = 29) by (unfold ToFloat32.shift in *; lia).
  rewrite Hshift. change (Z.to_nat 29) with 29%nat.
  assert (Hdig : Z.pos (digits2_pos m) = 53) by (rewrite Hshift in HE; lia).
  pose proof (digits2_pos_bounds m) as [Hlo _]. rewrite Hdig in Hlo.
  change 8388608 with (2 ^ (52 - Z.of_nat 29)).
  apply rounded_ge_pow2; [lia | exact Hlo].
Qed.

(** The order of binary64 mantissas and exponents is the order of what
    they round to, counted in units of the smallest float32. *)
Lemma rounded32_mono (m1 m2 : positive) (e1 e2 : Z) :
  bounded 53 1024 m1 e1 = true -> bounded 53 1024 m2 e2 = true ->
  e1 < e2 \/ e1 = e2 /\ (m1 <= m2)%positive ->
  Shift.rounded (Z.to_nat (ToFloat32.shift e1)) (Z.pos m1) * 2 ^ (e1 + ToFloat32.shift e1 + 149)
  <= Shift.rounded (Z.to_nat (ToFloat32.shift e2)) (Z.pos m2)
     * 2 ^ (e2 + ToFloat32.shift e2 + 149).
Proof.
  intros Hb1 Hb2 [Hlt|[<- Hle]].
  - destruct (bounded64 m1 e1 Hb1) as [Hd1 He1].
    destruct (bounded64 m2 e2 Hb2) as [Hd2 He2].
    pose proof (digits2_pos_bounds m1) as [_ Hhi1].
    pose proof (digits2_pos_bounds m2) as [Hlo2 _].
    assert (Hdig2 : Z.pos (digits2_pos m2) = 53) by lia. rewrite Hdig2 in Hlo2.
    assert (Hm1 : Z.pos m1 <= 2 ^ 53).
    { assert (2 ^ Z.pos (digits2_pos m1) <= 2 ^ 53) by (apply Z.pow_le_mono_r; lia). lia. }
    set (k1 := ToFloat32.shift e1). set (k2 := ToFloat32.shift e2).
    assert (Hk : 29 <= k2 <= k1 /\ -149 <= e1 + k1 /\ -149 <= e2 + k2
                 /\ (k1 <= 53 -> k2 <= 52))
      by (unfold k1, k2, ToFloat32.shift; lia).
    pose proof (rounded_le_pow2 (Z.to_nat k1) (Z.pos m1) 53 ltac:(lia) ltac:(lia)) as Hup.
    pose proof (rounded_ge_pow2 (Z.to_nat k2) (Z.pos m2) 52 ltac:(lia) Hlo2) as Hdown.
    pose proof (rounded_nonneg (Z.to_nat k2) (Z.pos m2) ltac:(lia)) as Hnn2.
    rewrite Z2Nat.id in Hup, Hdown by lia.
    assert (Hp1 : 0 < 2 ^ (e1 + k1 + 149)) by (apply Z.pow_pos_nonneg; lia).
    assert (Hp2 : 0 < 2 ^ (e2 + k2 + 149)) by (apply Z.pow_pos_nonneg; lia).
    destruct (Z_lt_le_dec (53 - k1) 0) as [Hout|Hin].
    + rewrite Z.pow_neg_r in Hup by exact Hout. nia.
    + assert (Hpow : 2 ^ (53 - k1) * 2 ^ (e1 + k1 + 149)
                     <= 2 ^ (52 - k2) * 2 ^ (e2 + k2 + 149)).
      { rewrite <- !Z.pow_add_r by lia. apply Z.pow_le_mono_r; lia. }
      assert (H52 : 0 < 2 ^ (52 - k2)) by (apply Z.pow_pos_nonneg; lia).
      nia.
  - apply Z.mul_le_mono_nonneg_r.
    + apply Z.pow_nonneg. lia.
    + apply rounded_mono; lia.
Qed.

(** Two rounded mantissas in that order finish as floats in order, and
    in the opposite order under the minus sign. *)
Lemma finish_order (m1 E1 m2 E2 : Z) :
  canonical32 m1 E1 -> canonical32 m2 E2 ->
  m1 * 2 ^ (E1 + 149) <= m2 * 2 ^ (E2 + 149) ->
  SFleb (ToFloat32.finish false m1 E1) (ToFloat32.finish false m2 E2) = true
  /\ SFleb (ToFloat32.finish true m2 E2) (ToFloat32.finish true m1 E1) = true.
Proof.
  intros (Hm1 & HE1 & Hn1) (Hm2 & HE2 & Hn2) Hle. unfold ToFloat32.finish.
  set (n1 := if m1 =? 16777216 then 8388608 else m1).
  set (F1 := if m1 =? 16777216 then E1 + 1 else E1).
  set (n2 := if m2 =? 16777216 then 8388608 else m2).
  set (F2 := if m2 =? 16777216 then E2 + 1 else E2).
  assert (Hc1 : 0 <= n1 < 16777216 /\ -149 <= F1 /\ (-149 < F1 -> 8388608 <= n1)
                /\ n1 * 2 ^ (F1 + 149) = m1 * 2 ^ (E1 + 149)).
  { unfold n1, F1. destruct (Z.eqb_spec m1 16777216) as [->|Hne].
    - replace (E1 + 1 + 149) with (Z.succ (E1 + 149)) by lia.
      rewrite Z.pow_succ_r by lia. lia.
    - lia. }
  assert (Hc2 : 0 <= n2 < 16777216 /\ -149 <= F2 /\ (-149 < F2 -> 8388608 <= n2)
                /\ n2 * 2 ^ (F2 + 149) = m2 * 2 ^ (E2 + 149)).
  { unfold n2, F2. destruct (Z.eqb_spec m2 16777216) as [->|Hne].
    - replace (E2 + 1 + 149) with (Z.succ (E2 + 149)) by lia.
      rewrite Z.pow_succ_r by lia. lia.
    - lia. }
  clearbody n1 F1 n2 F2.
  destruct Hc1 as (Hb1 & HF1 & Hnorm1 & Hv1). destruct Hc2 as (Hb2 & HF2 & Hnorm2 & Hv2).
  rewrite <- Hv1, <- Hv2 in Hle. clear Hv1 Hv2 Hm1 Hm2 HE1 HE2 Hn1 Hn2.
  assert (Hx : 0 < 2 ^ (F2 + 149)) by (apply Z.pow_pos_nonneg; lia).
  assert (Hy : 0 < 2 ^ (F1 + 149)) by (apply Z.pow_pos_nonneg; lia).
  assert (Hord : n1 = 0 \/ 0 < n1 /\ 0 < n2 /\ (F1 < F2 \/ F1 = F2 /\ n1 <= n2)).
  { destruct (Z.eq_dec n1 0) as [?|Hpos1]; [left; assumption | right].
    split; [lia|]. split; [nia|].
    destruct (Z.lt_trichotomy F1 F2) as [?|[Heq|Hgt]]; [left; assumption | |].
    - right. split; [exact Heq|]. rewrite Heq in Hle. nia.
    - exfalso.
      assert (Hsplit : 2 ^ (F1 + 149) = 2 ^ (F1 - F2) * 2 ^ (F2 + 149)).
      { rewrite <- Z.pow_add_r by lia. f_equal. lia. }
      assert (Htwo : 2 ^ 1 <= 2 ^ (F1 - F2)) by (apply Z.pow_le_mono_r; lia).
      change (2 ^ 1) with 2 in Htwo. rewrite Hsplit in Hle.
      specialize (Hnorm1 ltac:(lia)). nia. }
  destruct Hord as [->|(Hp1 & Hp2 & Hord)].
  - destruct n2 as [|p2|p2]; [split; reflexivity | | lia].
    destruct (F2 <=? 104); split; reflexivity.
  - destruct n1 as [|p1|p1]; try lia. destruct n2 as [|p2|p2]; try lia.
    destruct (Z.leb_spec F1 104) as [Hl1|Hl1], (Z.leb_spec F2 104) as [Hl2|Hl2];
      try (split; reflexivity); [|lia].
    unfold SFleb, SFcompare.
    destruct Hord as [Hlt|[-> Hle']].
    + rewrite (proj2 (Z.compare_lt_iff F1 F2) Hlt).
      rewrite (proj2 (Z.compare_gt_iff F2 F1) Hlt). split; reflexivity.
    + rewrite Z.compare_refl.
      change (Pos.compare_cont Eq p1 p2) with (Pos.compare p1 p2).
      change (Pos.compare_cont Eq p2 p1) with (Pos.compare p2 p1).
      rewrite (Pos.compare_antisym p1 p2).
      destruct (Pos.compare_spec p1 p2) as [?|?|Hgt]; try (split; reflexivity).
      lia.
Qed.

(** [binary_round] to binary64 leaves a binary64 as it is. *)
Lemma round64_of_binary64 (s : bool) (m : positive) (e : Z) :
  bounded 53 1024 m e = true -> binary_round 53 1024 s m e = S754_finite s m e.
Proof.
  intros Hb. pose proof Hb as Hb'. unfold bounded, canonical_mantissa in Hb'.
  apply andb_true_iff in Hb' as [Hc He]. apply Z.eqb_eq in Hc.
  unfold binary_round, shl_align. rewrite Hc, Z.sub_diag.
  unfold binary_round_aux, shr_fexp. cbn [Zdigits2]. rewrite Hc, Z.sub_diag.
  cbn [shr shr_record_of_loc shr_m loc_of_shr_record round_nearest_even Zdigits2].
  rewrite Hc, Z.sub_diag. cbn [shr shr_m]. rewrite He. reflexivity.
Qed.

Lemma finish_signed (s : bool) (m E : Z) : 0 <= m -> signed s (ToFloat32.finish s m E).
Proof.
  intros Hm. unfold ToFloat32.finish.
  destruct (if m =? 16777216 then 8388608 else m) as [|p|p] eqn:Hn.
  - left. reflexivity.
  - destruct (_ <=? 104); [right; right; eauto | right; left; reflexivity].
  - destruct (m =? 16777216); [discriminate | lia].
Qed.

Lemma signed_order (x y : spec_float) : signed true x -> signed false y -> SFleb x y = true.
Proof.
  intros [->|[->|(m & e & ->)]] [->|[->|(m' & e' & ->)]]; reflexivity.
Qed.

Lemma signed_zero_l (s : bool) (y : spec_float) :
  signed false y -> SFleb (S754_zero s) y = true.
Proof. intros [->|[->|(m' & e' & ->)]]; reflexivity. Qed.

Lemma signed_zero_r (s : bool) (x : spec_float) :
  signed true x -> SFleb x (S754_zero s) = true.
Proof. intros [->|[->|(m' & e' & ->)]]; reflexivity. Qed.

Lemma signed_infinity_l (s : bool) (y : spec_float) :
  signed s y -> SFleb (S754_infinity true) y = true.
Proof. intros [->|[->|(m' & e' & ->)]]; destruct s; reflexivity. Qed.

Lemma signed_infinity_r (s : bool) (x : spec_float) :
  signed s x -> SFleb x (S754_infinity false) = true.
Proof. intros [->|[->|(m' & e' & ->)]]; destruct s; reflexivity. Qed.

(** Rounding to float32 keeps the order of binary64 values. *)
Lemma round32_keeps_order (a b : spec_float) :
  valid_binary 53 1024 a = true -> valid_binary 53 1024 b = true ->
  SFleb a b = true ->
  SFleb (match a with
         | S754_finite s m e => binary_round 24 128 s m e
         | _ => a
         end)
        (match b with
         | S754_finite s m e => binary_round 24 128 s m e
         | _ => b
         end) = true.
Proof.
  intros Ha Hb Hle.
  assert (Hfin : forall s m e, bounded 53 1024 m e = true ->
            signed s (binary_round 24 128 s m e)).
  { intros s m e Hbd. rewrite (round32_of_binary64 s m e Hbd).
    apply finish_signed. apply (rounded32_bounds m e Hbd). }
  destruct a as [sa|sa| |sa ma ea], b as [sb|sb| |sb mb eb];
    cbn [valid_binary] in Ha, Hb; try exact Hle; try discriminate Hle.
  - destruct sb; [discriminate Hle|]. apply signed_zero_l. apply Hfin. exact Hb.
  - destruct sa; [|discriminate Hle]. eapply signed_infinity_l. apply Hfin. exact Hb.
  - destruct sa; [|discriminate Hle]. apply signed_zero_r. apply Hfin. exact Ha.
  - destruct sb; [discriminate Hle|]. eapply signed_infinity_r. apply Hfin. exact Ha.
  - destruct sa, sb.
    + (* both negative *)
      rewrite (round32_of_binary64 _ _ _ Ha), (round32_of_binary64 _ _ _ Hb).
      apply finish_order; try (apply rounded32_canonical; assumption).
      apply rounded32_mono; try assumption.
      unfold SFleb, SFcompare in Hle.
      destruct (Z.compare_spec ea eb) as [->|Hlt|Hgt]; [right | discriminate | left; lia].
      split; [reflexivity|].
      change (Pos.compare_cont Eq ma mb) with (Pos.compare ma mb) in Hle.
      destruct (Pos.compare_spec ma mb) as [->|Hlt|Hgt];
        [reflexivity | discriminate | lia].
    + apply signed_order; apply Hfin; assumption.
    + discriminate Hle.
    + (* both positive *)
      rewrite (round32_of_binary64 _ _ _ Ha), (round32_of_binary64 _ _ _ Hb).
      apply finish_order; try (apply rounded32_canonical; assumption).
      apply rounded32_mono; try assumption.
      unfold SFleb, SFcompare in Hle.
      destruct (Z.compare_spec ea eb) as [->|Hlt|Hgt]; [right | left; lia | discriminate].
      split; [reflexivity|].
      change (Pos.compare_cont Eq ma mb) with (Pos.compare ma mb) in Hle.
      destruct (Pos.compare_spec ma mb) as [->|Hlt|Hgt];
        [reflexivity | lia | discriminate].
Qed.

(** Rounding to the dtype of an array keeps the order of Python floats. *)
Lemma round_keeps_order (d : dtype) (a b : spec_float) :
  Float.valid a = true -> Float.valid b = true ->
  SFleb a b = true -> SFleb (Dtype.round d a) (Dtype.round d b) = true.
Proof.
  intros Ha Hb Hle. destruct d.
  - apply (round32_keeps_order a b Ha Hb Hle).
  - assert (Hid : forall x, Float.valid x = true -> Dtype.round Float64 x = x).
    { intros [s|s| |s m e] Hx; try reflexivity.
      apply (round64_of_binary64 s m e Hx). }
    rewrite (Hid a Ha), (Hid b Hb). exact Hle.
Qed.

(** ** [np.max] and [np.argmax] *)

Lemma maximum_nan xs a : Float.is_nan a = true -> fold_left Np.maximum xs a = a.
Proof.
  revert a. induction xs as [|x xs IH]; intros a Ha; [reflexivity|].
  cbn [fold_left]. unfold Np.maximum at 2. rewrite Ha, orb_true_r. auto.
Qed.

Lemma argmax_scan_spec xs : forall (pre : list spec_float) mp best,
  (pre ++ xs) !! best = Some mp ->
  (pre ++ xs) !! Np.argmax_scan xs (length pre) mp best
  = Some (fold_left Np.maximum xs mp).
Proof.
  induction xs as [|x xs IH]; intros pre mp best Hb; [exact Hb|].
  cbn [Np.argmax_scan fold_left]. unfold Np.maximum at 2.
  destruct (Float.is_nan mp) eqn:Hn.
  - rewrite orb_true_r, maximum_nan by exact Hn. exact Hb.
  - rewrite orb_false_r. destruct (SFleb x mp) eqn:Hle; cbn [negb].
    + specialize (IH (pre ++ [x]) mp best).
      rewrite <- app_assoc, length_app in IH. cbn in IH.
      replace (length pre + 1)%nat with (S (length pre)) in IH by lia. auto.
    + specialize (IH (pre ++ [x]) x (length pre)).
      rewrite <- app_assoc, length_app in IH. cbn in IH.
      replace (length pre + 1)%nat with (S (length pre)) in IH by lia.
      apply IH. rewrite lookup_app_r by lia.
      replace (length pre - length pre)%nat with O by lia. reflexivity.
Qed.

(** The arg-max is the index of the maximum. *)
Lemma argmax_is_index_of_max conf label mx :
  Np.argmax conf = Ok label -> Np.max conf = Ok mx -> conf !! label = Some mx.
Proof.
  destruct conf as [|x xs]; cbn; [discriminate|].
  intros [= <-] [= <-]. exact (argmax_scan_spec xs [x] x 0%nat eq_refl).
Qed.

Lemma maximum_upper xs : forall a,
  Float.is_nan (fold_left Np.maximum xs a) = false ->
  SFleb a (fold_left Np.maximum xs a) = true
  /\ forall x, In x xs -> SFleb x (fold_left Np.maximum xs a) = true.
Proof.
  induction xs as [|x xs IH]; intros a Hm; cbn [fold_left] in *.
  - split; [apply SFleb_refl; exact Hm | intros ? []].
  - destruct (Float.is_nan a) eqn:Ha.
    { assert (Hax : Np.maximum a x = a)
        by (unfold Np.maximum; rewrite Ha, orb_true_r; reflexivity).
      rewrite Hax, maximum_nan in Hm by exact Ha. congruence. }
    destruct (SFleb x a) eqn:Hxa.
    + assert (Hax : Np.maximum a x = a)
        by (unfold Np.maximum; rewrite Hxa; reflexivity).
      rewrite Hax in *. destruct (IH _ Hm) as [Hstep Hrest].
      split; [exact Hstep|]. intros y [<-|Hy]; [|auto].
      eapply SFleb_trans; eauto.
    + assert (Hax : Np.maximum a x = x)
        by (unfold Np.maximum; rewrite Hxa, Ha; reflexivity).
      rewrite Hax in *. destruct (IH _ Hm) as [Hstep Hrest].
      assert (Hx : Float.is_nan x = false).
      { destruct (Float.is_nan x) eqn:Hx; [|reflexivity].
        rewrite maximum_nan in Hm by exact Hx. congruence. }
      split.
      * eapply SFleb_trans; [|exact Hstep]. apply SFleb_total; auto.
      * intros y [<-|Hy]; [exact Hstep|auto].
Qed.

(** A maximum that is a number bounds every entry. *)
Lemma max_is_upper_bound conf mx :
  Np.max conf = Ok mx -> Float.is_nan mx = false ->
  forall x, In x conf -> SFleb x mx = true.
Proof.
  destruct conf as [|c cs]; cbn [Np.max]; [discriminate|].
  intros [= <-] Hn x [<-|Hx]; destruct (maximum_upper cs c Hn); auto.
Qed.

Lemma nonempty_argmax_max conf :
  conf <> [] -> exists label mx, Np.argmax conf = Ok label /\ Np.max conf = Ok mx.
Proof. destruct conf; [congruence|]. intros _. cbn. eauto. Qed.

(** ** The loop of [write_results] *)

Section WriteResultsLoop.
Context `{NumpyVersion}.
Variables (outname : string) (min_hr min_conf : spec_float).

Lemma length_snoc_pos {A} (l : list A) (x : A) : (0 <? length (l ++ [x]))%nat = true.
Proof. apply Nat.ltb_lt. rewrite length_app. cbn. lia. Qed.

Lemma amax_of_max conf mx :
  Np.max (arr_values conf) = Ok mx -> Np.amax conf = Ok (NpFloat (arr_dtype conf) mx).
Proof. intros Hm. unfold Np.amax. rewrite Hm. reflexivity. Qed.

Lemma nonempty_argmax_max_array conf :
  arr_values conf <> [] ->
  exists label mx, Np.argmax (arr_values conf) = Ok label
                   /\ Np.max (arr_values conf) = Ok mx.
Proof. apply nonempty_argmax_max. Qed.

(** One iteration on a readable clip: the row is appended when the clip
    passes the gate, then the report so far is written when it has a row,
    and the notice is printed and logged when it has none. *)
Lemma write_results_body_run rows idx conf hr label mx w :
  Np.argmax (arr_values conf) = Ok label -> Np.max (arr_values conf) = Ok mx ->
  let rows' := rows ++ (if qualifies min_hr min_conf label hr (NpFloat (arr_dtype conf) mx)
                        then [[CInt idx; CInt (idx + 3); CInt (Z.of_nat label);
                               CFloat mx; hr_cell hr]]
                        else []) in
  write_results_body outname min_hr min_conf rows idx conf hr w
  = (Ok (rows', idx + 3),
     if (0 <? length rows')%nat
     then World (<[outname := header :: rows']> (files w)) (dirs w)
                (events w ++ [FileWritten outname (header :: rows')])
     else World (files w) (dirs w)
                (events w ++ [Printed (no_detection_message outname);
                              LoggedInfo (no_detection_message outname)])).
Proof.
  intros Hl Hm. unfold write_results_body, bind, lift, qualifies.
  rewrite Hl, (amax_of_max conf mx Hm). cbn [np_value].
  destruct (negb (Nat.eqb label 0) && hr_gt hr min_hr
            && np_gt (NpFloat (arr_dtype conf) mx) min_conf);
    cbn zeta.
  - rewrite !length_snoc_pos. reflexivity.
  - rewrite app_nil_r. destruct rows as [|r rows]; cbn; [|reflexivity].
    rewrite <- app_assoc. reflexivity.
Qed.

Lemma length_pos_nonempty {A} (l : list A) : (0 <? length l)%nat = true <-> l <> [].
Proof. destruct l; cbn; split; intros; congruence. Qed.

(** The whole loop on readable clips: it returns, with the rows of
    [detections] appended; it touches no other file; with no row at the
    end it has written nothing and given one notice per clip; with a row
    at the end the destination holds the header and all the rows. *)
Lemma write_results_loop_run probs : forall hrs rows idx w,
  Forall (fun conf => arr_values conf <> []) probs ->
  (rows <> [] -> files w !! outname = Some (header :: rows)) ->
  exists w',
    write_results_loop outname min_hr min_conf probs hrs rows idx w
    = (Ok (rows ++ detections min_hr min_conf probs hrs idx,
           idx + 3 * Z.of_nat (Nat.min (length probs) (length hrs))), w')
    /\ (forall p, p <> outname -> files w' !! p = files w !! p)
    /\ (rows ++ detections min_hr min_conf probs hrs idx = [] ->
        files w' = files w
        /\ events w' = events w ++ notices outname (Nat.min (length probs) (length hrs)))
    /\ (rows ++ detections min_hr min_conf probs hrs idx <> [] ->
        files w' !! outname
        = Some (header :: rows ++ detections min_hr min_conf probs hrs idx)).
Proof.
  induction probs as [|conf probs IH]; intros hrs rows idx w Hne Hpre.
  - exists w. cbn. rewrite !app_nil_r, Z.add_0_r.
    repeat split; auto.
  - destruct hrs as [|hr hrs].
    { exists w. cbn. rewrite !app_nil_r, Z.add_0_r. repeat split; auto. }
    inversion Hne as [|? ? Hconf Hne']; subst.
    destruct (nonempty_argmax_max_array conf Hconf) as (label & mx & Hl & Hm).
    cbn [write_results_loop detections]. unfold bind at 1.
    rewrite (write_results_body_run rows idx conf hr label mx w Hl Hm).
    rewrite Hl, Hm. cbn zeta. cbn [fst snd].
    match goal with
    | |- context [rows ++ ?n ++ detections _ _ _ _ _] => set (new := n)
    end.
    set (rows' := rows ++ new).
    match goal with
    | |- context [write_results_loop _ _ _ _ _ _ _ ?x] => set (w1 := x)
    end.
    assert (Hpre1 : rows' <> [] -> files w1 !! outname = Some (header :: rows')).
    { intros Hr. apply length_pos_nonempty in Hr. subst w1.
      match goal with
      | |- context [if ?c then _ else _] => replace c with true by (symmetry; exact Hr)
      end.
      cbn. apply lookup_insert_eq. }
    destruct (IH hrs rows' (idx + 3) w1 Hne' Hpre1)
      as (w' & Hrun & Hother & Hnone & Hsome).
    exists w'. subst rows'. rewrite <- !app_assoc in Hrun, Hnone, Hsome.
    split.
    { etransitivity; [exact Hrun|]. cbn [length Nat.min]. do 3 f_equal. lia. }
    split; [|split].
    + intros p Hp. rewrite (Hother p Hp). subst w1.
      destruct (0 <? _)%nat; cbn; [apply lookup_insert_ne; congruence|reflexivity].
    + intros Hnil. destruct (Hnone Hnil) as [Hf He].
      apply app_eq_nil in Hnil as [Hrows Hnil]. apply app_eq_nil in Hnil as [Hq _].
      subst w1. rewrite Hrows, Hq in Hf, He. cbn in Hf, He.
      split; [exact Hf|]. rewrite He, <- app_assoc. reflexivity.
    + exact Hsome.
Qed.

(** Where the rows of [detections] come from: each one is the row of one
    clip that passes the gate, at three seconds per clip. *)
Lemma detections_In probs : forall hrs idx r,
  In r (detections min_hr min_conf probs hrs idx) ->
  exists (j : nat) conf hr label mx,
    probs !! j = Some conf /\ hrs !! j = Some hr
    /\ Np.argmax (arr_values conf) = Ok label /\ Np.max (arr_values conf) = Ok mx
    /\ qualifies min_hr min_conf label hr (NpFloat (arr_dtype conf) mx) = true
    /\ r = [CInt (idx + 3 * Z.of_nat j); CInt (idx + 3 * Z.of_nat j + 3);
            CInt (Z.of_nat label); CFloat mx; hr_cell hr].
Proof.
  induction probs as [|conf probs IH]; intros hrs idx r Hin; [destruct Hin|].
  destruct hrs as [|hr hrs]; [destruct Hin|]. cbn [detections] in Hin.
  destruct (Np.argmax (arr_values conf)) as [label|] eqn:Hl; [|destruct Hin].
  destruct (Np.max (arr_values conf)) as [mx|] eqn:Hm; [|destruct Hin].
  apply in_app_or in Hin as [Hin|Hin].
  - destruct (qualifies min_hr min_conf label hr (NpFloat (arr_dtype conf) mx)) eqn:Hq;
      [|destruct Hin].
    destruct Hin as [<-|[]]. exists 0%nat, conf, hr, label, mx.
    rewrite Z.mul_0_r, Z.add_0_r. repeat split; auto.
  - destruct (IH hrs (idx + 3) r Hin) as (j & c & h & l & m & Hp & Hh & Ha & Hx & Hq & ->).
    exists (S j), c, h, l, m. repeat split; auto.
    replace (idx + 3 * Z.of_nat (S j)) with (idx + 3 + 3 * Z.of_nat j) by lia.
    reflexivity.
Qed.

Lemma In_detections probs : forall hrs idx (j : nat) conf hr label mx,
  Forall (fun conf => arr_values conf <> []) probs ->
  probs !! j = Some conf -> hrs !! j = Some hr ->
  Np.argmax (arr_values conf) = Ok label -> Np.max (arr_values conf) = Ok mx ->
  qualifies min_hr min_conf label hr (NpFloat (arr_dtype conf) mx) = true ->
  In [CInt (idx + 3 * Z.of_nat j); CInt (idx + 3 * Z.of_nat j + 3);
      CInt (Z.of_nat label); CFloat mx; hr_cell hr]
     (detections min_hr min_conf probs hrs idx).
Proof.
  induction probs as [|c probs IH]; intros hrs idx j conf hr label mx Hne Hp Hh Hl Hm Hq;
    [discriminate|].
  destruct hrs as [|h hrs]; [discriminate|].
  inversion Hne as [|? ? Hc Hne']; subst. cbn [detections].
  destruct (nonempty_argmax_max_array c Hc) as (l0 & m0 & Hl0 & Hm0). rewrite Hl0, Hm0.
  apply in_or_app. destruct j as [|j]; cbn in Hp, Hh.
  - injection Hp as ->. injection Hh as ->.
    rewrite Hl in Hl0. rewrite Hm in Hm0. injection Hl0 as <-. injection Hm0 as <-.
    left. rewrite Hq, Z.mul_0_r, Z.add_0_r. left. reflexivity.
  - right. specialize (IH hrs (idx + 3) j conf hr label mx Hne' Hp Hh Hl Hm Hq).
    replace (idx + 3 * Z.of_nat (S j)) with (idx + 3 + 3 * Z.of_nat j) by lia. exact IH.
Qed.

(** The rows of [detections] start at strictly increasing offsets. *)
Lemma detections_sorted probs : forall hrs idx,
  StronglySorted chronological (detections min_hr min_conf probs hrs idx).
Proof.
  induction probs as [|conf probs IH]; intros hrs idx; [constructor|].
  destruct hrs as [|hr hrs]; [constructor|]. cbn [detections].
  destruct (Np.argmax (arr_values conf)) as [label|]; [|constructor].
  destruct (Np.max (arr_values conf)) as [mx|]; [|constructor].
  destruct (qualifies min_hr min_conf label hr (NpFloat (arr_dtype conf) mx));
    cbn [app]; [|apply IH].
  constructor; [apply IH|]. apply Forall_forall. intros r Hr.
  apply list_elem_of_In, detections_In in Hr as (j & c & h & l & m & _ & _ & _ & _ & _ & ->).
  exists idx, (idx + 3 + 3 * Z.of_nat j). cbn. repeat split; lia.
Qed.

End WriteResultsLoop.

(** ** [compute_hr] and the loop of [predict] *)

Section PredictLoop.
Context `{NumpyVersion} `{External}.
Variables (device : string) (threshold : spec_float).

Lemma compute_hr_run (a : array) :
  compute_hr a
  = Ok (np_mean (frame_scores
                   (butterworth 18 [Float.div (Float.of_Z 1) (Float.of_Z 22050);
                                    Float.div (Float.of_Z 600) (Float.of_Z 22050)] a)
                   44100 44100 4410 "hamming")).
Proof. reflexivity. Qed.

Lemma predict_loop_run (loader : list array) : forall probs0 hrs0,
  Forall (readable device) loader ->
  exists probs hrs,
    predict_loop loader device threshold probs0 hrs0 = Ok (probs0 ++ probs, hrs0 ++ hrs)
    /\ length probs = length loader /\ length hrs = length loader
    /\ Forall (fun conf => arr_values conf <> []) probs
    /\ forall (i : nat) a, loader !! i = Some a ->
         exists conf hr, probs !! i = Some conf /\ hrs !! i = Some hr
                         /\ recorded device threshold a conf hr.
Proof.
  induction loader as [|a loader IH]; intros probs0 hrs0 Hread.
  - exists [], []. cbn. rewrite !app_nil_r. repeat split; auto. intros i a Hi. discriminate.
  - inversion Hread as [|? ? (conf & Hrow & Hne) Hread']; subst.
    cbn [predict_loop]. rewrite Hrow. cbn [rbind].
    destruct (nonempty_argmax_max (arr_values conf) Hne) as (l & mx & _ & Hmx).
    rewrite (amax_of_max conf mx Hmx). cbn [rbind].
    destruct (np_ge (NpFloat (arr_dtype conf) mx) threshold) eqn:Hgate.
    + rewrite compute_hr_run. cbn [rbind].
      match goal with
      | |- context [hrs0 ++ [?h]] =>
          destruct (IH (probs0 ++ [conf]) (hrs0 ++ [h]) Hread')
            as (probs & hrs & Hrun & Hlp & Hlh & Hnes & Hrec);
          exists (conf :: probs), (h :: hrs)
      end.
      rewrite Hrun, <- !app_assoc.
      split; [reflexivity|]. cbn [length]. repeat split; auto.
      intros [|i] b Hb; cbn in Hb.
      * injection Hb as <-. eexists conf, _. repeat split; eauto.
        exists (NpFloat (arr_dtype conf) mx). split; [apply amax_of_max; exact Hmx|].
        split; [intros _; eexists; split; [apply compute_hr_run | reflexivity]
               | congruence].
      * apply Hrec; exact Hb.
    + cbn [rbind].
      destruct (IH (probs0 ++ [conf]) (hrs0 ++ [PyInt 0]) Hread')
        as (probs & hrs & Hrun & Hlp & Hlh & Hnes & Hrec).
      exists (conf :: probs), (PyInt 0 :: hrs). rewrite Hrun, <- !app_assoc.
      split; [reflexivity|]. cbn [length]. repeat split; auto.
      intros [|i] b Hb; cbn in Hb.
      * injection Hb as <-. exists conf, (PyInt 0). repeat split; eauto.
        exists (NpFloat (arr_dtype conf) mx). split; [apply amax_of_max; exact Hmx|].
        split; [congruence | reflexivity].
      * apply Hrec; exact Hb.
Qed.

End PredictLoop.

(** The arg-max is the first index of the maximum: every entry before it
    is below the maximum. *)
Lemma argmax_scan_first xs : forall (pre : list spec_float) mp best,
  (best < length pre)%nat ->
  (Float.is_nan mp = false -> forall y, In y pre -> SFleb y mp = true) ->
  (forall (j : nat) y, (j < best)%nat -> pre !! j = Some y -> SFleb mp y = false) ->
  forall (j : nat) y,
    (j < Np.argmax_scan xs (length pre) mp best)%nat ->
    (pre ++ xs) !! j = Some y ->
    SFleb (fold_left Np.maximum xs mp) y = false.
Proof.
  induction xs as [|x xs IH]; intros pre mp best Hb Hup Hfirst j y Hj Hy.
  - cbn in *. rewrite app_nil_r in Hy. eauto.
  - cbn [Np.argmax_scan fold_left] in *. destruct (Float.is_nan mp) eqn:Hn.
    { assert (Hax : Np.maximum mp x = mp)
        by (unfold Np.maximum; rewrite Hn, orb_true_r; reflexivity).
      rewrite Hax, maximum_nan by exact Hn. apply SFleb_nan_l. exact Hn. }
    replace (pre ++ x :: xs) with ((pre ++ [x]) ++ xs) in Hy
      by (rewrite <- app_assoc; reflexivity).
    replace (S (length pre)) with (length (pre ++ [x])) in Hj
      by (rewrite length_app; cbn; lia).
    destruct (SFleb x mp) eqn:Hle; cbn [negb] in Hj.
    + assert (Hax : Np.maximum mp x = mp)
        by (unfold Np.maximum; rewrite Hle; reflexivity).
      rewrite Hax. apply (IH (pre ++ [x]) mp best) with (j := j); auto.
      * rewrite length_app. cbn. lia.
      * intros _ z Hz. apply in_app_or in Hz as [Hz|[<-|[]]]; auto.
      * intros k z Hk Hz. rewrite lookup_app_l in Hz by lia. eauto.
    + assert (Hax : Np.maximum mp x = x)
        by (unfold Np.maximum; rewrite Hle, Hn; reflexivity).
      rewrite Hax. apply (IH (pre ++ [x]) x (length pre)) with (j := j); auto.
      * rewrite length_app. cbn. lia.
      * intros Hx z Hz. apply in_app_or in Hz as [Hz|[<-|[]]].
        -- eapply SFleb_trans; [apply Hup; auto|]. apply SFleb_total; auto.
        -- apply SFleb_refl. exact Hx.
      * intros k z Hk Hz. rewrite lookup_app_l in Hz by exact Hk.
        destruct (SFleb x z) eqn:Hxz; [|reflexivity].
        assert (Hin : In z pre)
          by (apply list_elem_of_In; apply (list_elem_of_lookup_2 pre k z Hz)).
        rewrite (SFleb_trans x z mp Hxz (Hup eq_refl z Hin)) in Hle. discriminate.
Qed.

Lemma argmax_is_first conf label mx :
  Np.argmax conf = Ok label -> Np.max conf = Ok mx ->
  forall (j : nat) y, (j < label)%nat -> conf !! j = Some y -> SFleb mx y = false.
Proof.
  destruct conf as [|x xs]; cbn [Np.argmax Np.max]; [discriminate|].
  intros [= <-] [= <-] j y Hj Hy.
  apply (argmax_scan_first xs [x] x 0%nat) with (j := j).
  - cbn. lia.
  - intros Hx z [<-|[]]. apply SFleb_refl. exact Hx.
  - intros k z Hk. lia.
  - exact Hj.
  - exact Hy.
Qed.

(** ** The detection gate, the intervals and the order of the report *)

Lemma qualifies_spec `{NumpyVersion} min_hr min_conf label hr mx :
  qualifies min_hr min_conf label hr mx = true
  <-> label <> 0%nat /\ hr_gt hr min_hr = true /\ np_gt mx min_conf = true.
Proof.
  unfold qualifies. rewrite !andb_true_iff, negb_true_iff, Nat.eqb_neq. tauto.
Qed.

(** [x > t] and [x >= t] under each rule. *)
Lemma np_gt_by_rule `{NumpyVersion} (x : np_float) (t : spec_float) :
  (promotion_rule = Legacy -> np_gt x t = SFltb t (Dtype.round Float64 (np_value x)))
  /\ (promotion_rule = WeakScalars ->
      np_gt x t = SFltb (Dtype.round (np_dtype x) t) (np_value x)).
Proof. unfold np_gt, operands. split; intros ->; reflexivity. Qed.

Lemma np_ge_by_rule `{NumpyVersion} (x : np_float) (t : spec_float) :
  (promotion_rule = Legacy -> np_ge x t = SFleb t (Dtype.round Float64 (np_value x)))
  /\ (promotion_rule = WeakScalars ->
      np_ge x t = SFleb (Dtype.round (np_dtype x) t) (np_value x)).
Proof. unfold np_ge, operands. split; intros ->; reflexivity. Qed.

Lemma np_gt_equal_operands `{NumpyVersion} x t :
  fst (operands x t) = snd (operands x t) -> np_gt x t = false.
Proof. unfold np_gt. intros ->. apply SFltb_irrefl. Qed.

Lemma hr_gt_equal_operands `{NumpyVersion} hr t :
  fst (hr_operands hr t) = snd (hr_operands hr t) -> hr_gt hr t = false.
Proof. unfold hr_gt. intros ->. apply SFltb_irrefl. Qed.

(** C1. On clips the classifier gave probabilities for, [write_results]
    returns, and the clip at index [i] has a row in the report (and in the
    file, once the report has a row) if and only if its arg-max label is
    not 0, its harmonic ratio is strictly above [min_hr] and its largest
    probability is strictly above [min_conf], each comparison being the
    [>] of NumPy on its operands; operands that are equal do not pass.
    For the largest probability the operands are its value in float64 and
    [min_conf] under the rule of NumPy 1, and the probability and
    [min_conf] rounded to the dtype of the probabilities under the rule of
    NumPy 2. *)
Theorem detection_emitted_iff_gates `{NumpyVersion}
  (outname : string) (min_hr min_conf : spec_float)
  (probs : list ndarray) (hrs : list scalar) (w : world) :
  Forall (fun conf => arr_values conf <> []) probs ->
  exists rows idx w',
    write_results_loop outname min_hr min_conf probs hrs [] 0 w = (Ok (rows, idx), w')
    /\ write_results probs hrs outname min_hr min_conf w = (Ok tt, w')
    /\ (rows <> [] -> files w' !! outname = Some (header :: rows))
    /\ forall (i : nat) conf hr label mx,
         probs !! i = Some conf -> hrs !! i = Some hr ->
         Np.argmax (arr_values conf) = Ok label ->
         Np.max (arr_values conf) = Ok mx ->
         let max_value := NpFloat (arr_dtype conf) mx in
         ((exists r, In r rows /\ start_detection r = Some (Z.of_nat i * clip_duration))
          <-> label <> 0%nat /\ hr_gt hr min_hr = true
              /\ np_gt max_value min_conf = true)
         /\ (In [CInt (Z.of_nat i * clip_duration);
                 CInt ((Z.of_nat i + 1) * clip_duration);
                 CInt (Z.of_nat label); CFloat mx; hr_cell hr] rows
             <-> label <> 0%nat /\ hr_gt hr min_hr = true
                 /\ np_gt max_value min_conf = true)
         /\ (fst (hr_operands hr min_hr) = snd (hr_operands hr min_hr)
             \/ fst (operands max_value min_conf) = snd (operands max_value min_conf) ->
             ~ exists r, In r rows /\ start_detection r = Some (Z.of_nat i * clip_duration))
         /\ (promotion_rule = Legacy ->
             np_gt max_value min_conf = SFltb min_conf (Dtype.round Float64 mx))
         /\ (promotion_rule = WeakScalars ->
             np_gt max_value min_conf = SFltb (Dtype.round (arr_dtype conf) min_conf) mx).
Proof.
  intros Hne.
  destruct (write_results_loop_run outname min_hr min_conf probs hrs [] 0 w Hne)
    as (w' & Hrun & _ & _ & Hfile); [congruence|].
  cbn [app] in Hrun, Hfile. rewrite Z.add_0_l in Hrun.
  eexists _, _, w'. split; [exact Hrun|].
  split; [unfold write_results, bind; rewrite Hrun; reflexivity|].
  split; [exact Hfile|].
  intros i conf hr label mx Hp Hh Hl Hm. cbv zeta.
  assert (Hrow : (exists r, In r (detections min_hr min_conf probs hrs 0)
                   /\ start_detection r = Some (Z.of_nat i * clip_duration))
                 <-> label <> 0%nat /\ hr_gt hr min_hr = true
                     /\ np_gt (NpFloat (arr_dtype conf) mx) min_conf = true).
  { rewrite <- qualifies_spec. split.
    - intros (r & Hin & Hstart).
      apply detections_In in Hin
        as (j & c & h & l & m & Hpj & Hhj & Hlj & Hmj & Hq & ->).
      cbn in Hstart. unfold clip_duration in Hstart.
      assert (j = i) as -> by (injection Hstart; lia).
      congruence.
    - intros Hq. eexists. split.
      + exact (In_detections min_hr min_conf probs hrs 0 i conf hr label mx
                 Hne Hp Hh Hl Hm Hq).
      + cbn. unfold clip_duration. f_equal. lia. }
  split; [exact Hrow|]. split.
  - rewrite <- qualifies_spec. split.
    + intros Hin.
      apply detections_In in Hin
        as (j & c & h & l & m & Hpj & Hhj & Hlj & Hmj & Hq & Heq).
      unfold clip_duration in Heq.
      assert (j = i) as -> by (injection Heq; lia).
      congruence.
    + intros Hq.
      pose proof (In_detections min_hr min_conf probs hrs 0 i conf hr label mx
                    Hne Hp Hh Hl Hm Hq) as Hin.
      unfold clip_duration.
      replace (Z.of_nat i * 3) with (0 + 3 * Z.of_nat i) by lia.
      replace ((Z.of_nat i + 1) * 3) with (0 + 3 * Z.of_nat i + 3) by lia.
      exact Hin.
  - split; [|exact (np_gt_by_rule (NpFloat (arr_dtype conf) mx) min_conf)].
    intros Heq Hex. apply Hrow in Hex as (_ & Hhr & Hmx).
    destruct Heq as [Heq|Heq].
    + rewrite (hr_gt_equal_operands hr min_hr Heq) in Hhr. discriminate.
    + rewrite (np_gt_equal_operands _ min_conf Heq) in Hmx. discriminate.
Qed.

(** C6. The row of a detection is the row of one clip: with the clip
    duration of 3 seconds, a row of the report starts at [i * clip_duration]
    and ends at [(i + 1) * clip_duration] for the index [i] of its clip and
    carries that clip's label, confidence and harmonic ratio; every clip
    that passes the gate has its own row, whatever its neighbours are; and
    the offset after [n] clips is [n * clip_duration]. *)
Theorem detection_interval_of_clip_index `{NumpyVersion}
  (outname : string) (min_hr min_conf : spec_float)
  (probs : list ndarray) (hrs : list scalar) (w : world) :
  Forall (fun conf => arr_values conf <> []) probs ->
  exists rows idx w',
    write_results_loop outname min_hr min_conf probs hrs [] 0 w = (Ok (rows, idx), w')
    /\ idx = Z.of_nat (Nat.min (length probs) (length hrs)) * clip_duration
    /\ (forall r, In r rows ->
        exists (i : nat) conf hr label mx,
          probs !! i = Some conf /\ hrs !! i = Some hr
          /\ Np.argmax (arr_values conf) = Ok label
          /\ Np.max (arr_values conf) = Ok mx
          /\ r = [CInt (Z.of_nat i * clip_duration);
                  CInt ((Z.of_nat i + 1) * clip_duration);
                  CInt (Z.of_nat label); CFloat mx; hr_cell hr]
          /\ start_detection r = Some (Z.of_nat i * clip_duration)
          /\ end_detection r = Some ((Z.of_nat i + 1) * clip_duration))
    /\ (forall (i : nat) conf hr label mx,
          probs !! i = Some conf -> hrs !! i = Some hr ->
          Np.argmax (arr_values conf) = Ok label ->
          Np.max (arr_values conf) = Ok mx ->
          qualifies min_hr min_conf label hr (NpFloat (arr_dtype conf) mx) = true ->
          In [CInt (Z.of_nat i * clip_duration);
              CInt ((Z.of_nat i + 1) * clip_duration);
              CInt (Z.of_nat label); CFloat mx; hr_cell hr] rows).
Proof.
  intros Hne.
  destruct (write_results_loop_run outname min_hr min_conf probs hrs [] 0 w Hne)
    as (w' & Hrun & _); [congruence|].
  cbn [app] in Hrun. rewrite Z.add_0_l in Hrun.
  eexists _, _, w'. split; [exact Hrun|].
  split; [unfold clip_duration; lia|]. split.
  - intros r Hin.
    apply detections_In in Hin
      as (j & c & h & l & m & Hpj & Hhj & Hlj & Hmj & Hq & ->).
    exists j, c, h, l, m. unfold clip_duration.
    replace (Z.of_nat j * 3) with (0 + 3 * Z.of_nat j) by lia.
    replace ((Z.of_nat j + 1) * 3) with (0 + 3 * Z.of_nat j + 3) by lia.
    repeat split; auto.
  - intros i conf hr label mx Hp Hh Hl Hm Hq.
    pose proof (In_detections min_hr min_conf probs hrs 0 i conf hr label mx
                  Hne Hp Hh Hl Hm Hq) as Hin.
    unfold clip_duration.
    replace (Z.of_nat i * 3) with (0 + 3 * Z.of_nat i) by lia.
    replace ((Z.of_nat i + 1) * 3) with (0 + 3 * Z.of_nat i + 3) by lia.
    exact Hin.
Qed.

(** C7. The rows of the report, and of the file that holds it, are in
    the order of the clips: the [start_detection] of a row is at most that
    of every row after it. *)
Theorem report_rows_chronological `{NumpyVersion}
  (outname : string) (min_hr min_conf : spec_float)
  (probs : list ndarray) (hrs : list scalar) (w : world) :
  Forall (fun conf => arr_values conf <> []) probs ->
  exists rows idx w',
    write_results_loop outname min_hr min_conf probs hrs [] 0 w = (Ok (rows, idx), w')
    /\ StronglySorted chronological rows
    /\ (rows <> [] -> files w' !! outname = Some (header :: rows)).
Proof.
  intros Hne.
  destruct (write_results_loop_run outname min_hr min_conf probs hrs [] 0 w Hne)
    as (w' & Hrun & _ & _ & Hfile); [congruence|].
  cbn [app] in Hrun, Hfile.
  eexists _, _, w'. split; [exact Hrun|]. split; [apply detections_sorted | exact Hfile].
Qed.

(** ** The harmonic ratio, the confidence gate and the probabilities *)

(** C8. [compute_hr] always returns, and what it returns is the mean
    ([np.mean]) of the per-frame scores of the signal filtered by a
    Butterworth band-pass of order 18 whose band edges are 1 Hz and 600 Hz
    divided by the Nyquist frequency (half the sampling rate of 44100 Hz),
    framed with a frame of one second ([1 * fs] samples), a hop of a tenth
    of a second ([fs / 10] samples) and a Hamming window. *)
Theorem compute_hr_is_mean_of_band_passed_frames `{External} (a : array) :
  let fs := 44100 in
  let nyquist := Float.div (Float.of_Z fs) (Float.of_Z 2) in
  let Wn := [Float.div (Float.of_Z 1) nyquist; Float.div (Float.of_Z 600) nyquist] in
  compute_hr a
  = Ok (np_mean (frame_scores (butterworth 18 Wn a) fs (1 * fs) (fs / 10) "hamming"))
  /\ nyquist = Float.of_Z 22050
  /\ Float.to_int (Float.mul Float.lit_0_1 (Float.of_Z fs)) = Ok (fs / 10).
Proof. cbv zeta. repeat split; reflexivity. Qed.

(** C2. On clips the classifier can be read on, [predict] returns one
    probability row and one harmonic ratio per clip. The row of a clip is
    the first row of the exponentiated output of the classifier on it; its
    harmonic ratio is the value of [compute_hr] when the largest entry of
    that row is at least the threshold, by the [>=] of NumPy, operands
    that are equal included, and the int 0 when it is not; the operands
    are the value of the entry in float64 and the threshold under the rule
    of NumPy 1, and the entry and the threshold rounded to the dtype of
    the row under the rule of NumPy 2; the default threshold is 0.99. *)
Theorem harmonic_ratio_gated_by_confidence `{NumpyVersion} `{External}
  (loader : list array) (device : string) (threshold : spec_float) :
  Forall (readable device) loader ->
  exists probs hrs,
    predict loader device threshold = Ok (probs, hrs)
    /\ length probs = length loader /\ length hrs = length loader
    /\ (forall (i : nat) a, loader !! i = Some a ->
        exists conf mx hr,
          first_row (exp_all (model_forward (to_device device a))) = Ok conf
          /\ probs !! i = Some conf
          /\ Np.max (arr_values conf) = Ok mx
          /\ hrs !! i = Some hr
          /\ (np_ge (NpFloat (arr_dtype conf) mx) threshold = true ->
              exists h, compute_hr a = Ok h /\ hr = NpScalar h)
          /\ (np_ge (NpFloat (arr_dtype conf) mx) threshold = false -> hr = PyInt 0)
          /\ (fst (operands (NpFloat (arr_dtype conf) mx) threshold)
              = snd (operands (NpFloat (arr_dtype conf) mx) threshold) ->
              Float.is_nan (snd (operands (NpFloat (arr_dtype conf) mx) threshold)) = false ->
              exists h, compute_hr a = Ok h /\ hr = NpScalar h)
          /\ (promotion_rule = Legacy ->
              np_ge (NpFloat (arr_dtype conf) mx) threshold
              = SFleb threshold (Dtype.round Float64 mx))
          /\ (promotion_rule = WeakScalars ->
              np_ge (NpFloat (arr_dtype conf) mx) threshold
              = SFleb (Dtype.round (arr_dtype conf) threshold) mx))
    /\ threshold_default = Float.lit_0_99.
Proof.
  intros Hread.
  destruct (predict_loop_run device threshold loader [] [] Hread)
    as (probs & hrs & Hrun & Hlp & Hlh & _ & Hrec).
  exists probs, hrs. split; [exact Hrun|]. repeat split; auto.
  intros i a Hi.
  destruct (Hrec i a Hi) as (conf & hr & Hp & Hh & Hfirst & mxf & Hmx & Hyes & Hno).
  unfold Np.amax in Hmx.
  destruct (Np.max (arr_values conf)) as [mx|] eqn:Hmax; [|discriminate].
  cbn [rbind] in Hmx. injection Hmx as <-.
  exists conf, mx, hr.
  split; [exact Hfirst|]. split; [exact Hp|]. split; [exact Hmax|].
  split; [exact Hh|]. split; [exact Hyes|]. split; [exact Hno|].
  split; [|exact (np_ge_by_rule (NpFloat (arr_dtype conf) mx) threshold)].
  intros Heq Hn. apply Hyes. unfold np_ge. rewrite Heq. apply SFleb_refl. exact Hn.
Qed.

(** C9. For every clip, the probabilities [predict] hands on are the
    exponentials ([np.exp]) of the first row of the classifier's output
    on it, and the label and the confidence [write_results] goes by are
    the arg-max and the maximum of those probabilities: the maximum is the
    entry at the arg-max index, the entries before that index are below
    it and, when it is a number, no entry is above it; the clip has a row
    exactly when that label is not 0 and that maximum and the harmonic
    ratio pass their thresholds, and the row carries that label and that
    maximum. *)
Theorem probabilities_are_exponentiated_outputs `{NumpyVersion} `{External}
  (loader : list array) (device : string) (threshold min_hr min_conf : spec_float)
  (outname : string) (w : world) :
  Forall (readable device) loader ->
  exists probs hrs rows idx w',
    predict loader device threshold = Ok (probs, hrs)
    /\ write_results_loop outname min_hr min_conf probs hrs [] 0 w = (Ok (rows, idx), w')
    /\ forall (i : nat) a, loader !! i = Some a ->
         exists raw rest label mx hr,
           let output := model_forward (to_device device a) in
           let d := matrix_dtype output in
           let conf := map (np_exp d) raw in
           let row := [CInt (Z.of_nat i * clip_duration);
                       CInt ((Z.of_nat i + 1) * clip_duration);
                       CInt (Z.of_nat label); CFloat mx; hr_cell hr] in
           matrix_rows output = raw :: rest
           /\ probs !! i = Some (NdArray d conf)
           /\ hrs !! i = Some hr
           /\ Np.argmax conf = Ok label
           /\ Np.max conf = Ok mx
           /\ conf !! label = Some mx
           /\ (forall (j : nat) x, (j < label)%nat -> conf !! j = Some x ->
               SFleb mx x = false)
           /\ (Float.is_nan mx = false -> forall x, In x conf -> SFleb x mx = true)
           /\ (In row rows
               <-> label <> 0%nat /\ hr_gt hr min_hr = true
                   /\ np_gt (NpFloat d mx) min_conf = true)
           /\ (forall r, In r rows ->
               start_detection r = Some (Z.of_nat i * clip_duration) -> r = row).
Proof.
  intros Hread.
  destruct (predict_loop_run device threshold loader [] [] Hread)
    as (probs & hrs & Hrun & Hlp & Hlh & Hne & Hrec).
  destruct (write_results_loop_run outname min_hr min_conf probs hrs [] 0 w Hne)
    as (w' & Hwr & _); [congruence|].
  cbn [app] in Hwr.
  eexists probs, hrs, _, _, w'. split; [exact Hrun|]. split; [exact Hwr|].
  intros i a Hi.
  destruct (Hrec i a Hi) as (conf & hr & Hp & Hh & Hfirst & _).
  unfold first_row, exp_all in Hfirst. cbn [matrix_rows matrix_dtype] in Hfirst.
  destruct (matrix_rows (model_forward (to_device device a))) as [|raw rest] eqn:Hrows;
    [discriminate|].
  cbn [map] in Hfirst. injection Hfirst as <-.
  set (d := matrix_dtype (model_forward (to_device device a))) in *.
  set (conf := map (np_exp d) raw) in *.
  assert (Hconf : arr_values (NdArray d conf) <> []).
  { apply (proj1 (Forall_forall _ probs) Hne (NdArray d conf)).
    eapply list_elem_of_lookup_2. exact Hp. }
  destruct (nonempty_argmax_max conf Hconf) as (label & mx & Hl & Hm).
  exists raw, rest, label, mx, hr. cbv zeta. fold d. fold conf.
  split; [exact Hrows|]. split; [exact Hp|]. split; [exact Hh|].
  split; [exact Hl|]. split; [exact Hm|].
  split; [eapply argmax_is_index_of_max; eauto|].
  split; [eapply argmax_is_first; eauto|].
  split; [intros Hn; eapply max_is_upper_bound; eauto|].
  split.
  - rewrite <- qualifies_spec. unfold clip_duration.
    replace (Z.of_nat i * 3) with (0 + 3 * Z.of_nat i) by lia.
    replace ((Z.of_nat i + 1) * 3) with (0 + 3 * Z.of_nat i + 3) by lia.
    split.
    + intros Hin.
      apply detections_In in Hin
        as (j & c & h & l & m & Hpj & Hhj & Hlj & Hmj & Hq & Heq).
      assert (j = i) as -> by (injection Heq; lia).
      rewrite Hp in Hpj. injection Hpj as <-. cbn [arr_values arr_dtype] in *.
      congruence.
    + intros Hq.
      exact (In_detections min_hr min_conf probs hrs 0 i (NdArray d conf) hr label mx
               Hne Hp Hh Hl Hm Hq).
  - intros r Hin Hstart.
    apply detections_In in Hin
      as (j & c & h & l & m & Hpj & Hhj & Hlj & Hmj & Hq & ->).
    cbn in Hstart. unfold clip_duration in *.
    assert (j = i) as -> by (injection Hstart; lia).
    rewrite Hp in Hpj. injection Hpj as <-. cbn [arr_values arr_dtype] in *.
    rewrite Hh in Hhj. injection Hhj as <-.
    rewrite Hl in Hlj. injection Hlj as <-.
    rewrite Hm in Hmj. injection Hmj as <-.
    replace (Z.of_nat i * 3) with (0 + 3 * Z.of_nat i) by lia.
    replace ((Z.of_nat i + 1) * 3) with (0 + 3 * Z.of_nat i + 3) by lia.
    reflexivity.
Qed.

Lemma sentinel_fails_hr_gate `{NumpyVersion} min_hr :
  SFleb Float.zero min_hr = true -> hr_gt (PyInt 0) min_hr = false.
Proof. intros Hmin. unfold hr_gt. cbn. apply sentinel_not_above. exact Hmin. Qed.

(** C10. With [min_hr] at least 0, a clip whose largest probability is
    below the threshold of [predict] is recorded with the sentinel 0 and
    has no row in the report of [write_results], whatever [min_conf] is. *)
Theorem skipped_clip_never_detected `{NumpyVersion} `{External}
  (loader : list array) (device : string) (threshold min_hr min_conf : spec_float)
  (outname : string) (w : world) (i : nat) (a : array)
  (conf : ndarray) (mx : spec_float) :
  Forall (readable device) loader ->
  SFleb Float.zero min_hr = true ->
  loader !! i = Some a ->
  first_row (exp_all (model_forward (to_device device a))) = Ok conf ->
  Np.max (arr_values conf) = Ok mx ->
  np_ge (NpFloat (arr_dtype conf) mx) threshold = false ->
  exists probs hrs rows idx w',
    predict loader device threshold = Ok (probs, hrs)
    /\ hrs !! i = Some (PyInt 0)
    /\ write_results_loop outname min_hr min_conf probs hrs [] 0 w = (Ok (rows, idx), w')
    /\ (forall r, In r rows -> start_detection r <> Some (Z.of_nat i * clip_duration)).
Proof.
  intros Hread Hmin Hi Hfirst Hmx Hgate.
  destruct (predict_loop_run device threshold loader [] [] Hread)
    as (probs & hrs & Hrun & Hlp & Hlh & Hne & Hrec).
  destruct (write_results_loop_run outname min_hr min_conf probs hrs [] 0 w Hne)
    as (w' & Hwr & _); [congruence|].
  cbn [app] in Hwr.
  destruct (Hrec i a Hi) as (conf' & hr & Hp & Hh & Hfirst' & mx' & Hmx' & _ & Hno).
  rewrite Hfirst in Hfirst'. injection Hfirst' as <-.
  rewrite (amax_of_max conf mx Hmx) in Hmx'. injection Hmx' as <-.
  rewrite (Hno Hgate) in Hh.
  eexists probs, hrs, _, _, w'. split; [exact Hrun|]. split; [exact Hh|].
  split; [exact Hwr|].
  intros r Hin Hstart.
  apply detections_In in Hin
    as (j & c & h & l & m & Hpj & Hhj & Hlj & Hmj & Hq & ->).
  cbn in Hstart. unfold clip_duration in Hstart.
  assert (j = i) as -> by (injection Hstart; lia).
  rewrite Hh in Hhj. injection Hhj as <-.
  apply qualifies_spec in Hq as (_ & Hhr & _).
  rewrite (sentinel_fails_hr_gate min_hr Hmin) in Hhr. discriminate.
Qed.

(** ** Where the comparison of NumPy is not that of the values *)

(** C1, under the rule of NumPy 2. A clip of label 1 whose largest
    probability is the float32 nearest to 0.99, with a harmonic ratio of
    0.15, against [min_hr] at 0.1 and [min_conf] at 0.99: the harmonic
    ratio is above [min_hr] and the largest probability is, as a number,
    above [min_conf]; the clip has no row all the same, since [min_conf]
    rounded to float32 is that probability. Under the rule of NumPy 1 it
    has its row. *)
Theorem above_min_conf_without_row :
  Np.argmax (arr_values Demo.boundary_probs) = Ok 1%nat
  /\ Np.max (arr_values Demo.boundary_probs) = Ok Demo.p0_99
  /\ SFltb Float.lit_0_1 Demo.f0_15 = true
  /\ SFltb Float.lit_0_99 (Dtype.round Float64 Demo.p0_99) = true
  /\ Dtype.round Float32 Float.lit_0_99 = Demo.p0_99
  /\ fst (@write_results_loop Demo.numpy2 "out/rec_ANALYZED.csv" Float.lit_0_1
            Float.lit_0_99 [Demo.boundary_probs] [Demo.hr_of Demo.f0_15] [] 0
            Demo.out_world)
     = Ok ([], 3)
  /\ files (snd (@write_results Demo.numpy2 [Demo.boundary_probs]
                   [Demo.hr_of Demo.f0_15] "out/rec_ANALYZED.csv" Float.lit_0_1
                   Float.lit_0_99 Demo.out_world))
     = ∅
  /\ fst (@write_results_loop Demo.numpy1 "out/rec_ANALYZED.csv" Float.lit_0_1
            Float.lit_0_99 [Demo.boundary_probs] [Demo.hr_of Demo.f0_15] [] 0
            Demo.out_world)
     = Ok ([[CInt 0; CInt 3; CInt 1; CFloat Demo.p0_99; CFloat Demo.f0_15]], 3).
Proof. repeat split; vm_compute; reflexivity. Qed.

(** C2, under the rule of NumPy 2. A clip whose largest probability is
    the float32 nearest to 0.7, which as a number is below 0.7, against a
    threshold of 0.7: [predict] computes the harmonic ratio all the same,
    since the threshold rounded to float32 is that probability. Under the
    rule of NumPy 1 it records the sentinel. *)
Theorem below_threshold_with_harmonic_ratio :
  first_row (@exp_all Demo.ext
               (@model_forward Demo.ext (@to_device Demo.ext "cpu" Demo.borderline)))
  = Ok Demo.borderline_probs
  /\ Np.max (arr_values Demo.borderline_probs) = Ok Demo.p0_7
  /\ SFleb Demo.f0_7 (Dtype.round Float64 Demo.p0_7) = false
  /\ Dtype.round Float32 Demo.f0_7 = Demo.p0_7
  /\ @predict Demo.numpy2 Demo.ext [Demo.borderline] "cpu" Demo.f0_7
     = Ok ([Demo.borderline_probs], [Demo.hr_of Demo.f0_15])
  /\ @predict Demo.numpy1 Demo.ext [Demo.borderline] "cpu" Demo.f0_7
     = Ok ([Demo.borderline_probs], [PyInt 0]).
Proof. repeat split; vm_compute; reflexivity. Qed.

(** ** Where the code departs from its documentation *)

(** C4, evaluated. [write_results] gives its notice inside the loop: two
    background clips give it twice (printed twice, logged twice) and no
    file; no clip at all gives no notice; a background clip followed by a
    detection gives the notice and then writes the report. *)
Theorem no_detection_notice_repeated_per_clip `{NumpyVersion} :
  let out := "out/rec_ANALYZED.csv"%string in
  let m := "No detection has been made for rec_ANALYZED.csv"%string in
  write_results [Demo.background_probs; Demo.background_probs]
                [PyInt 0; PyInt 0] out Float.lit_0_1 Float.lit_0_99
                Demo.out_world
  = (Ok tt, World ∅ (dirs Demo.out_world) [Printed m; LoggedInfo m; Printed m; LoggedInfo m])
  /\ write_results [] [] out Float.lit_0_1 Float.lit_0_99 Demo.out_world
     = (Ok tt, Demo.out_world)
  /\ events (snd (write_results [Demo.background_probs; Demo.engine_probs]
                    [PyInt 0; Demo.hr_of Demo.f0_15] out Float.lit_0_1 Float.lit_0_99
                    Demo.out_world))
     = [Printed m; LoggedInfo m;
        FileWritten out [header; [CInt 3; CInt 6; CInt 2;
                                  CFloat Demo.p0_995; CFloat Demo.f0_15]]].
Proof.
  destruct H as [[|]]; cbv zeta; repeat split; reflexivity.
Qed.

(** C5, evaluated. [write_results] writes the file inside the loop: with
    two detections the file is written twice, the first time with one row
    of the two; and when a later clip makes the loop raise, the file with
    the rows found so far stays behind. *)
Theorem report_rewritten_at_each_clip `{NumpyVersion} :
  let out := "out/rec_ANALYZED.csv"%string in
  let row0 := [CInt 0; CInt 3; CInt 2; CFloat Demo.p0_995; CFloat Demo.f0_15] in
  let row1 := [CInt 3; CInt 6; CInt 2; CFloat Demo.p0_995; CFloat Demo.f0_15] in
  events (snd (write_results [Demo.engine_probs; Demo.engine_probs]
                 [Demo.hr_of Demo.f0_15; Demo.hr_of Demo.f0_15] out
                 Float.lit_0_1 Float.lit_0_99 Demo.out_world))
  = [FileWritten out [header; row0]; FileWritten out [header; row0; row1]]
  /\ (exists e,
        fst (write_results [Demo.engine_probs; NdArray Float32 []]
               [Demo.hr_of Demo.f0_15; Demo.hr_of Demo.f0_15] out
               Float.lit_0_1 Float.lit_0_99 Demo.out_world) = Raise e)
  /\ files (snd (write_results [Demo.engine_probs; NdArray Float32 []]
                   [Demo.hr_of Demo.f0_15; Demo.hr_of Demo.f0_15] out
                   Float.lit_0_1 Float.lit_0_99 Demo.out_world)) !! out
     = Some [header; row0].
Proof.
  destruct H as [[|]]; cbv zeta;
    (split; [reflexivity|]; split; [eexists; reflexivity|]; vm_compute; reflexivity).
Qed.

(** C3, evaluated. [analyzeFile] looks for the bare name of the report in
    the working directory, not for the report at its destination: with a
    report at the destination it runs the classifier again and writes over
    the report; with a stray file of that name in the working directory it
    skips a recording that has no report. *)
Theorem existing_report_recomputed_and_overwritten `{NumpyVersion} :
  let dest := "data/SNOWMOBILE_RESULTS/rec_ANALYZED.csv"%string in
  let new_report := [header; [CInt 3; CInt 6; CInt 2;
                              CFloat Demo.p0_995; CFloat Demo.f0_15]] in
  let m := "No detection has been made for rec_ANALYZED.csv"%string in
  let rerun := @analyzeFile _ Demo.ext "data/rec.wav" "cpu" 1 Float.lit_0_1
                 Float.lit_0_99 1 Demo.analysed_world in
  let skipped := @analyzeFile _ Demo.ext "data/rec.wav" "cpu" 1 Float.lit_0_1
                   Float.lit_0_99 1 Demo.stray_world in
  files Demo.analysed_world !! dest = Some Demo.old_report
  /\ fst rerun = Ok tt
  /\ files (snd rerun) !! dest = Some new_report
  /\ new_report <> Demo.old_report
  /\ events (snd rerun)
     = [Printed m; LoggedInfo m;
        FileWritten dest new_report; FileWritten dest new_report;
        Printed "Finished data/rec.wav in 0.01 seconds";
        LoggedInfo "Finished data/rec.wav in 0.01 seconds"]
  /\ files Demo.stray_world !! dest = None
  /\ events (snd skipped) = [Printed "File rec_ANALYZED.csv already exists"]
  /\ files (snd skipped) !! dest = None.
Proof.
  destruct H as [[|]]; cbv zeta;
    (repeat split; try (vm_compute; reflexivity); vm_compute; discriminate).
Qed.

(** ** The theorems at work on the three clips *)

Lemma demo_probs_nonempty : Forall (fun conf : ndarray => arr_values conf <> []) Demo.probs.
Proof. repeat constructor; discriminate. Defined.

Lemma demo_loader_readable :
  Forall (@readable Demo.ext "cpu") [Demo.background; Demo.engine; Demo.broadband].
Proof. repeat constructor; eexists; (split; [reflexivity | discriminate]). Defined.

(** The second clip passes the three gates and has its row. *)
Lemma detection_emitted_iff_gates_witness :
  Forall (fun conf : ndarray => arr_values conf <> []) Demo.probs
  /\ exists rows idx w',
       @write_results_loop Demo.numpy2 "out/rec_ANALYZED.csv" Float.lit_0_1
         Float.lit_0_99 Demo.probs Demo.hrs [] 0 Demo.out_world = (Ok (rows, idx), w')
       /\ (In [CInt (Z.of_nat 1 * clip_duration); CInt ((Z.of_nat 1 + 1) * clip_duration);
               CInt (Z.of_nat 2); CFloat Demo.p0_995; hr_cell (Demo.hr_of Demo.f0_15)] rows
           <-> 2%nat <> 0%nat
               /\ @hr_gt Demo.numpy2 (Demo.hr_of Demo.f0_15) Float.lit_0_1 = true
               /\ @np_gt Demo.numpy2 (NpFloat Float32 Demo.p0_995) Float.lit_0_99 = true).
Proof.
  split; [exact demo_probs_nonempty|].
  destruct (@detection_emitted_iff_gates Demo.numpy2 "out/rec_ANALYZED.csv"
              Float.lit_0_1 Float.lit_0_99 Demo.probs Demo.hrs Demo.out_world
              demo_probs_nonempty)
    as (rows & idx & w' & Hrun & _ & _ & Hiff).
  exists rows, idx, w'. split; [exact Hrun|].
  exact (proj1 (proj2 (Hiff 1%nat Demo.engine_probs (Demo.hr_of Demo.f0_15) 2%nat
                         Demo.p0_995 eq_refl eq_refl eq_refl eq_refl))).
Defined.

Lemma detection_interval_of_clip_index_witness :
  Forall (fun conf : ndarray => arr_values conf <> []) Demo.probs
  /\ exists rows idx w',
       @write_results_loop Demo.numpy2 "out/rec_ANALYZED.csv" Float.lit_0_1
         Float.lit_0_99 Demo.probs Demo.hrs [] 0 Demo.out_world = (Ok (rows, idx), w')
       /\ idx = Z.of_nat (Nat.min (length Demo.probs) (length Demo.hrs)) * clip_duration.
Proof.
  split; [exact demo_probs_nonempty|].
  destruct (@detection_interval_of_clip_index Demo.numpy2 "out/rec_ANALYZED.csv"
              Float.lit_0_1 Float.lit_0_99 Demo.probs Demo.hrs Demo.out_world
              demo_probs_nonempty)
    as (rows & idx & w' & Hrun & Hidx & _).
  exists rows, idx, w'. split; [exact Hrun | exact Hidx].
Defined.

Lemma report_rows_chronological_witness :
  Forall (fun conf : ndarray => arr_values conf <> []) Demo.probs
  /\ exists rows idx w',
       @write_results_loop Demo.numpy2 "out/rec_ANALYZED.csv" Float.lit_0_1
         Float.lit_0_99 Demo.probs Demo.hrs [] 0 Demo.out_world = (Ok (rows, idx), w')
       /\ StronglySorted chronological rows.
Proof.
  split; [exact demo_probs_nonempty|].
  destruct (@report_rows_chronological Demo.numpy2 "out/rec_ANALYZED.csv"
              Float.lit_0_1 Float.lit_0_99 Demo.probs Demo.hrs Demo.out_world
              demo_probs_nonempty)
    as (rows & idx & w' & Hrun & Hsorted & _).
  exists rows, idx, w'. split; [exact Hrun | exact Hsorted].
Defined.

Lemma harmonic_ratio_gated_by_confidence_witness :
  Forall (@readable Demo.ext "cpu") [Demo.background; Demo.engine; Demo.broadband]
  /\ exists probs hrs,
       @predict Demo.numpy2 Demo.ext [Demo.background; Demo.engine; Demo.broadband]
         "cpu" threshold_default = Ok (probs, hrs)
       /\ length hrs = 3%nat.
Proof.
  split; [exact demo_loader_readable|].
  destruct (@harmonic_ratio_gated_by_confidence Demo.numpy2 Demo.ext
              [Demo.background; Demo.engine; Demo.broadband] "cpu" threshold_default
              demo_loader_readable)
    as (probs & hrs & Hrun & _ & Hlen & _).
  exists probs, hrs. split; [exact Hrun | exact Hlen].
Defined.

Lemma probabilities_are_exponentiated_outputs_witness :
  Forall (@readable Demo.ext "cpu") [Demo.background; Demo.engine; Demo.broadband]
  /\ exists probs hrs rows idx w',
       @predict Demo.numpy2 Demo.ext [Demo.background; Demo.engine; Demo.broadband]
         "cpu" threshold_default = Ok (probs, hrs)
       /\ @write_results_loop Demo.numpy2 "out/rec_ANALYZED.csv" Float.lit_0_1
            Float.lit_0_99 probs hrs [] 0 Demo.out_world = (Ok (rows, idx), w').
Proof.
  split; [exact demo_loader_readable|].
  destruct (@probabilities_are_exponentiated_outputs Demo.numpy2 Demo.ext
              [Demo.background; Demo.engine; Demo.broadband] "cpu" threshold_default
              Float.lit_0_1 Float.lit_0_99 "out/rec_ANALYZED.csv" Demo.out_world
              demo_loader_readable)
    as (probs & hrs & rows & idx & w' & Hrun & Hwr & _).
  exists probs, hrs, rows, idx, w'. split; [exact Hrun | exact Hwr].
Defined.

(** The background clip is below the threshold of 0.99 and has no row,
    here with [min_hr] at 0. *)
Lemma skipped_clip_never_detected_witness :
  Forall (@readable Demo.ext "cpu") [Demo.background; Demo.engine; Demo.broadband]
  /\ SFleb Float.zero Float.zero = true
  /\ @np_ge Demo.numpy2 (NpFloat Float32 Demo.p0_5) threshold_default = false
  /\ exists probs hrs rows idx w',
       @predict Demo.numpy2 Demo.ext [Demo.background; Demo.engine; Demo.broadband]
         "cpu" threshold_default = Ok (probs, hrs)
       /\ hrs !! 0%nat = Some (PyInt 0)
       /\ @write_results_loop Demo.numpy2 "out/rec_ANALYZED.csv" Float.zero
            Float.lit_0_99 probs hrs [] 0 Demo.out_world = (Ok (rows, idx), w')
       /\ (forall r, In r rows -> start_detection r <> Some (Z.of_nat 0 * clip_duration)).
Proof.
  split; [exact demo_loader_readable|]. split; [reflexivity|]. split; [reflexivity|].
  exact (@skipped_clip_never_detected Demo.numpy2 Demo.ext
           [Demo.background; Demo.engine; Demo.broadband] "cpu" threshold_default
           Float.zero Float.lit_0_99 "out/rec_ANALYZED.csv" Demo.out_world
           0%nat Demo.background Demo.background_probs Demo.p0_5
           demo_loader_readable eq_refl eq_refl eq_refl eq_refl eq_refl).
Defined.

(** ** The scenarios of the specification, run *)

(** Three clips with (label, confidence) (0, 0.50), (2, 0.995), (2, 0.995)
    and harmonic ratios (sentinel, 0.15, 0.05): one detection, the second
    clip; the report is at its destination. *)
Example three_clips_one_detection `{NumpyVersion} :
  @predict _ Demo.ext [Demo.background; Demo.engine; Demo.broadband] "cpu"
    threshold_default = Ok (Demo.probs, Demo.hrs)
  /\ exists w',
       write_results_loop "out/rec_ANALYZED.csv" Float.lit_0_1 Float.lit_0_99
         Demo.probs Demo.hrs [] 0 Demo.out_world
       = (Ok ([[CInt 3; CInt 6; CInt 2; CFloat Demo.p0_995; CFloat Demo.f0_15]], 9), w')
       /\ files w' !! "out/rec_ANALYZED.csv"%string
          = Some [header; [CInt 3; CInt 6; CInt 2; CFloat Demo.p0_995; CFloat Demo.f0_15]].
Proof.
  destruct H as [[|]];
    (split; [reflexivity|]; eexists; split; [reflexivity|]; vm_compute; reflexivity).
Qed.

(** The confidence gate at its boundary: 0.99 passes, 0.9899 does not. *)
Example confidence_gate_boundary `{NumpyVersion} :
  np_ge (NpFloat Float64 Float.lit_0_99) threshold_default = true
  /\ np_ge (NpFloat Float64 Demo.f0_9899) threshold_default = false.
Proof. destruct H as [[|]]; split; reflexivity. Qed.

(** A float32 against a Python float that float32 cannot hold. NumPy 2
    rounds the Python float to float32: the float32 nearest to 0.99 is not
    above 0.99, and the float32 nearest to 0.7 is at least 0.7. NumPy 1
    compares in float64, where the first is above 0.99 and the second
    below 0.7. *)
Example float32_against_python_float :
  @np_gt Demo.numpy2 (NpFloat Float32 Demo.p0_99) Float.lit_0_99 = false
  /\ @np_gt Demo.numpy1 (NpFloat Float32 Demo.p0_99) Float.lit_0_99 = true
  /\ @np_ge Demo.numpy2 (NpFloat Float32 Demo.p0_7) Demo.f0_7 = true
  /\ @np_ge Demo.numpy1 (NpFloat Float32 Demo.p0_7) Demo.f0_7 = false
  /\ events (snd (@write_results Demo.numpy2 [NdArray Float32 [Demo.p0_01; Demo.p0_99]]
                    [Demo.hr_of Demo.f0_15] "out/rec_ANALYZED.csv" Float.lit_0_1
                    Float.lit_0_99 Demo.out_world))
     = [Printed "No detection has been made for rec_ANALYZED.csv";
        LoggedInfo "No detection has been made for rec_ANALYZED.csv"].
Proof. repeat split; reflexivity. Qed.

(** The constants of [compute_hr] as Python computes them. *)
Example hop_length_value :
  Float.to_int (Float.mul Float.lit_0_1 (Float.of_Z 44100)) = Ok 4410.
Proof. reflexivity. Qed.

Example dirname_nested : Path.dirname "data/site1/rec.wav" = "data/site1"%string.
Proof. reflexivity. Qed.

Example dirname_bare : Path.dirname "rec.wav" = ""%string.
Proof. reflexivity. Qed.

Example dirname_root : Path.dirname "/rec.wav" = "/"%string.
Proof. reflexivity. Qed.

Example basename_nested : Path.basename "data/site1/rec.wav" = "rec.wav"%string.
Proof. reflexivity. Qed.

Example join_bare : Path.join "" "SNOWMOBILE_RESULTS" = "SNOWMOBILE_RESULTS"%string.
Proof. reflexivity. Qed.

Example join_nested : Path.join "data" "SNOWMOBILE_RESULTS" = "data/SNOWMOBILE_RESULTS"%string.
Proof. reflexivity. Qed.

Example split_dots : Str.split "."%char "rec.2021.wav" = ["rec"; "2021"; "wav"]%string.
Proof. reflexivity. Qed.

(** * Further properties of [predict.py] *)

(** ** Splitting and joining *)

Lemma append_empty_l (s : string) : "" +:+ s = s.
Proof. reflexivity. Qed.

Lemma append_String (c : ascii) (a b : string) : String c a +:+ b = String c (a +:+ b).
Proof. reflexivity. Qed.

Lemma split_not_nil (sep : ascii) (s : string) : Str.split sep s <> [].
Proof.
  induction s as [|c s IH]; cbn [Str.split]; [discriminate|].
  destruct (Ascii.eqb c sep); [discriminate|].
  destruct (Str.split sep s); [congruence | discriminate].
Qed.

(** A separator between two strings separates their parts. *)
Lemma split_append_sep (sep : ascii) (a b : string) :
  Str.split sep (a +:+ String sep b) = Str.split sep a ++ Str.split sep b.
Proof.
  induction a as [|c a IH];
    rewrite ?append_empty_l, ?append_String; cbn [Str.split].
  - rewrite Ascii.eqb_refl. reflexivity.
  - destruct (Ascii.eqb c sep); [rewrite IH; reflexivity|].
    rewrite IH. pose proof (split_not_nil sep a) as Hne.
    destruct (Str.split sep a); [congruence | reflexivity].
Qed.

Lemma split_without_sep (sep : ascii) (s : string) :
  Str.contains sep s = false -> Str.split sep s = [s].
Proof.
  induction s as [|c s IH]; cbn [Str.contains Str.split]; [reflexivity|].
  intros Hc. apply orb_false_iff in Hc as [Hc Hs].
  rewrite Hc, (IH Hs). reflexivity.
Qed.

(** Joining what was split gives the string back. *)
Lemma join_split (sep : ascii) (s : string) :
  Str.join (String sep EmptyString) (Str.split sep s) = s.
Proof.
  induction s as [|c s IH]; cbn [Str.split]; [reflexivity|].
  pose proof (split_not_nil sep s) as Hnil.
  destruct (Ascii.eqb_spec c sep) as [->|Hne].
  - destruct (Str.split sep s) as [|p ps] eqn:Hs; [congruence|].
    change (Str.join (String sep "") ("" :: p :: ps))
      with (String sep (Str.join (String sep "") (p :: ps))).
    rewrite IH. reflexivity.
  - destruct (Str.split sep s) as [|p ps] eqn:Hs; [congruence|].
    destruct ps as [|q ps].
    + cbn [Str.join] in *. congruence.
    + change (Str.join (String sep "") (String c p :: q :: ps))
        with (String c (Str.join (String sep "") (p :: q :: ps))).
      rewrite IH. reflexivity.
Qed.

(** The name [get_outname] keeps from a base name [stem.ext]. *)
Lemma kept_name_of_stem_ext (stem ext : string) :
  Str.contains "."%char ext = false ->
  let parts := Str.split "."%char (stem +:+ String "."%char ext) in
  (if (2 <? length parts)%nat
   then Str.join "." (removelast parts)
   else hd EmptyString parts) = stem.
Proof.
  intros Hext. cbv zeta. rewrite split_append_sep, (split_without_sep _ _ Hext).
  pose proof (join_split "."%char stem) as Hjoin.
  pose proof (split_not_nil "."%char stem) as Hnil.
  destruct (Str.split "."%char stem) as [|p ps]; [congruence|].
  destruct ps as [|q ps].
  - cbn. cbn in Hjoin. exact Hjoin.
  - rewrite removelast_last.
    replace (2 <? length ((p :: q :: ps) ++ [ext]))%nat with true; [exact Hjoin|].
    symmetry. apply Nat.ltb_lt. rewrite length_app. cbn. lia.
Qed.

(** ** [get_outname] *)

Lemma get_outname_of_stem_ext
  (input out_path stem ext : string) (w : world) :
  Path.basename input = stem +:+ "." +:+ ext ->
  Str.contains "."%char ext = false ->
  fst (get_outname input out_path w)
  = Ok (Path.join (out_path +:+ "/" +:+ Path.dirname input) (stem +:+ ".csv")).
Proof.
  intros Hbase Hext. unfold get_outname, bind, Os.path_exists.
  change (List.last (Str.split "/"%char input) EmptyString) with (Path.basename input).
  rewrite Hbase.
  change (stem +:+ "." +:+ ext) with (stem +:+ String "."%char ext).
  rewrite (kept_name_of_stem_ext stem ext Hext).
  cbn [Str.join]. destruct (negb _); reflexivity.
Qed.

(** The report of [get_outname] keeps the base name up to its last dot:
    for a base name [stem.ext], with no dot in [ext], the result is
    [stem.csv] in the folder [out_path/dirname(input)], whatever dots
    [stem] has. *)
Theorem get_outname_strips_last_extension
  (input out_path stem ext : string) (w : world) :
  Path.basename input = stem +:+ "." +:+ ext ->
  Str.contains "."%char ext = false ->
  fst (get_outname input out_path w)
  = Ok (Path.join (out_path +:+ "/" +:+ Path.dirname input) (stem +:+ ".csv")).
Proof. exact (get_outname_of_stem_ext input out_path stem ext w). Qed.

(** A base name without a dot is kept whole. *)
Theorem get_outname_without_extension (input out_path : string) (w : world) :
  Str.contains "."%char (Path.basename input) = false ->
  fst (get_outname input out_path w)
  = Ok (Path.join (out_path +:+ "/" +:+ Path.dirname input)
          (Path.basename input +:+ ".csv")).
Proof.
  intros Hdot. unfold get_outname, bind, Os.path_exists.
  change (List.last (Str.split "/"%char input) EmptyString) with (Path.basename input).
  rewrite (split_without_sep _ _ Hdot). cbn [length Nat.ltb Nat.leb hd Str.join].
  destruct (negb _); reflexivity.
Qed.

Lemma elem_of_makedirs (path p : string) (w : world) :
  p ∈ dirs (snd (Os.makedirs path w))
  <-> p = path \/ p ∈ Path.parents path \/ p ∈ dirs w.
Proof.
  cbn. rewrite !elem_of_union, elem_of_singleton, elem_of_list_to_set. tauto.
Qed.

Lemma get_outname_effects (input out_path : string) (w : world) :
  let outpath := out_path +:+ "/" +:+ Path.dirname input in
  let w' := snd (get_outname input out_path w) in
  (exists file_path, fst (get_outname input out_path w) = Ok file_path)
  /\ files w' = files w
  /\ events w' = events w
  /\ exists_in w' outpath = true
  /\ (forall p, p ∈ dirs w'
                <-> (p = outpath \/ p ∈ Path.parents outpath) /\ exists_in w outpath = false
                    \/ p ∈ dirs w)
  /\ (exists_in w outpath = true -> w' = w).
Proof.
  cbv zeta. unfold get_outname, bind, Os.path_exists. cbn [Str.join].
  change (String Path.sep "") with "/"%string.
  fold (exists_in w (out_path +:+ "/" +:+ Path.dirname input)).
  destruct (exists_in w (out_path +:+ "/" +:+ Path.dirname input)) eqn:Hex;
    cbn [negb ret fst snd].
  - split; [eexists; reflexivity|]. split; [reflexivity|]. split; [reflexivity|].
    split; [exact Hex|]. split; [|reflexivity].
    intros p. split; [intros Hp; right; exact Hp|].
    intros [[_ Hf]|Hp]; [discriminate | exact Hp].
  - split; [eexists; reflexivity|]. split; [reflexivity|]. split; [reflexivity|].
    split; [|split; [|discriminate]].
    + unfold exists_in. apply orb_true_iff. right.
      apply bool_decide_eq_true. apply elem_of_makedirs. left. reflexivity.
    + intros p. etransitivity; [apply elem_of_makedirs | tauto].
Qed.

(** [get_outname] leaves every file, the console and the log as they are
    and removes no folder; a folder that is new is the folder of the
    report or one above it; and when something is already at the path of
    that folder, [get_outname] returns and has changed nothing at all. *)
Theorem get_outname_only_makes_the_folder (input out_path : string) (w : world) :
  let outpath := out_path +:+ "/" +:+ Path.dirname input in
  let w' := snd (get_outname input out_path w) in
  files w' = files w
  /\ events w' = events w
  /\ (forall p, p ∈ dirs w -> p ∈ dirs w')
  /\ (forall p, p ∈ dirs w' -> p ∈ dirs w \/ p = outpath \/ p ∈ Path.parents outpath)
  /\ (exists_in w outpath = true ->
      w' = w /\ exists file_path, fst (get_outname input out_path w) = Ok file_path).
Proof.
  destruct (get_outname_effects input out_path w) as (Hok & Hf & He & Hex & Hd & Hsame).
  cbv zeta. split; [exact Hf|]. split; [exact He|].
  split; [intros p Hp; apply Hd; right; exact Hp|].
  split; [|intros Hthere; split; [exact (Hsame Hthere) | exact Hok]].
  intros p Hp. apply Hd in Hp as [[Hp _]|Hp]; [right; exact Hp | left; exact Hp].
Qed.

(** ** What [write_results] leaves alone *)

Lemma only_writes_at_refl outname w : only_writes_at outname w w.
Proof.
  repeat split; auto. exists []. rewrite app_nil_r. reflexivity.
Qed.

Lemma only_writes_at_trans outname w1 w2 w3 :
  only_writes_at outname w1 w2 -> only_writes_at outname w2 w3 ->
  only_writes_at outname w1 w3.
Proof.
  intros (Hd1 & Hf1 & Hs1 & e1 & He1) (Hd2 & Hf2 & Hs2 & e2 & He2).
  repeat split.
  - congruence.
  - intros p Hp. rewrite Hf2, Hf1 by exact Hp. reflexivity.
  - auto.
  - exists (e1 ++ e2). rewrite He2, He1, <- app_assoc. reflexivity.
Qed.

Lemma write_csv_only_writes_at outname content w :
  only_writes_at outname w (snd (Os.write_csv outname content w)).
Proof.
  cbn. repeat split.
  - intros p Hp. cbn. apply lookup_insert_ne. congruence.
  - intros p Hp. cbn. destruct (decide (outname = p)) as [->|Hne].
    + rewrite lookup_insert_eq. eauto.
    + rewrite lookup_insert_ne by exact Hne. exact Hp.
  - cbn. eauto.
Qed.

Lemma write_results_body_only_writes_at `{NumpyVersion} outname min_hr min_conf rows idx conf hr w :
  only_writes_at outname w
    (snd (write_results_body outname min_hr min_conf rows idx conf hr w)).
Proof.
  unfold write_results_body, bind, lift.
  destruct (Np.argmax (arr_values conf)) as [label|e]; [|apply only_writes_at_refl].
  unfold Np.amax.
  destruct (Np.max (arr_values conf)) as [mx|e]; [|apply only_writes_at_refl].
  cbn [rbind].
  match goal with
  | |- context [if (0 <? length ?l)%nat then _ else _] =>
      destruct (0 <? length l)%nat
  end.
  - apply (write_csv_only_writes_at outname _ w).
  - cbn. repeat split; auto. cbn. rewrite <- app_assoc. eauto.
Qed.

Lemma write_results_loop_only_writes_at `{NumpyVersion} outname min_hr min_conf probs :
  forall hrs rows idx w,
    only_writes_at outname w
      (snd (write_results_loop outname min_hr min_conf probs hrs rows idx w)).
Proof.
  induction probs as [|conf probs IH]; intros hrs rows idx w;
    [apply only_writes_at_refl|].
  destruct hrs as [|hr hrs]; [apply only_writes_at_refl|].
  cbn [write_results_loop]. unfold bind at 1.
  pose proof (write_results_body_only_writes_at outname min_hr min_conf rows idx conf hr w)
    as Hbody.
  destruct (write_results_body outname min_hr min_conf rows idx conf hr w)
    as [[st|e] w1]; cbn [snd] in Hbody; [|exact Hbody].
  eapply only_writes_at_trans; [exact Hbody | apply IH].
Qed.

Lemma write_results_frame `{NumpyVersion}
  (probs : list ndarray) (hrs : list scalar)
  (outname : string) (min_hr min_conf : spec_float) (w : world) :
  only_writes_at outname w (snd (write_results probs hrs outname min_hr min_conf w)).
Proof.
  unfold write_results, bind.
  pose proof (write_results_loop_only_writes_at outname min_hr min_conf probs hrs [] 0 w)
    as Hloop.
  destruct (write_results_loop outname min_hr min_conf probs hrs [] 0 w)
    as [[st|e] w1]; exact Hloop.
Qed.

(** Whatever it is given, and whether it returns or raises,
    [write_results] changes no file but the one at [outname], removes no
    file, creates no folder, and only adds to what was printed and logged. *)
Theorem write_results_only_writes_at_outname `{NumpyVersion}
  (probs : list ndarray) (hrs : list scalar)
  (outname : string) (min_hr min_conf : spec_float) (w : world) :
  only_writes_at outname w (snd (write_results probs hrs outname min_hr min_conf w)).
Proof. exact (write_results_frame probs hrs outname min_hr min_conf w). Qed.

(** ** Lists of different lengths, and lists put end to end *)

Lemma write_results_loop_truncates `{NumpyVersion} outname min_hr min_conf probs :
  forall hrs rows idx w,
    write_results_loop outname min_hr min_conf probs hrs rows idx w
    = write_results_loop outname min_hr min_conf
        (take (Nat.min (length probs) (length hrs)) probs)
        (take (Nat.min (length probs) (length hrs)) hrs) rows idx w.
Proof.
  induction probs as [|conf probs IH]; intros hrs rows idx w; [reflexivity|].
  destruct hrs as [|hr hrs]; [reflexivity|].
  cbn [length Nat.min take write_results_loop]. unfold bind.
  destruct (write_results_body outname min_hr min_conf rows idx conf hr w)
    as [[st|e] w1]; [apply IH | reflexivity].
Qed.

(** [write_results] reads its two lists in step and stops at the end of
    the shorter one: what is beyond that length in the longer list has no
    effect at all. *)
Theorem write_results_stops_at_shorter_list `{NumpyVersion}
  (probs : list ndarray) (hrs : list scalar)
  (outname : string) (min_hr min_conf : spec_float) (w : world) :
  let n := Nat.min (length probs) (length hrs) in
  write_results probs hrs outname min_hr min_conf w
  = write_results (take n probs) (take n hrs) outname min_hr min_conf w.
Proof.
  cbv zeta. unfold write_results, bind.
  rewrite (write_results_loop_truncates outname min_hr min_conf probs hrs [] 0 w).
  reflexivity.
Qed.

(** The loop over two batches of clips put end to end is the loop over
    the first batch followed by the loop over the second, started from the
    rows and the offset the first one reached. *)
Lemma write_results_loop_app `{NumpyVersion} outname min_hr min_conf probs1 :
  forall hrs1 probs2 hrs2 rows idx w,
    length probs1 = length hrs1 ->
    write_results_loop outname min_hr min_conf (probs1 ++ probs2) (hrs1 ++ hrs2)
      rows idx w
    = bind (write_results_loop outname min_hr min_conf probs1 hrs1 rows idx)
        (fun st => write_results_loop outname min_hr min_conf probs2 hrs2
                     (fst st) (snd st)) w.
Proof.
  induction probs1 as [|conf probs1 IH]; intros hrs1 probs2 hrs2 rows idx w Hlen.
  - destruct hrs1; [reflexivity | discriminate].
  - destruct hrs1 as [|hr hrs1]; [discriminate|].
    injection Hlen as Hlen. cbn [app write_results_loop]. unfold bind.
    destruct (write_results_body outname min_hr min_conf rows idx conf hr w)
      as [[st|e] w1]; [|reflexivity].
    rewrite (IH hrs1 probs2 hrs2 (fst st) (snd st) w1 Hlen). reflexivity.
Qed.

(** ** A clip without probabilities *)

(** When the clips before it have probabilities, a clip with an empty
    probability array makes [write_results] raise the [ValueError] of
    [np.argmax], and the world is left as the clips before it made it: the
    file, when they had a detection, holds their rows. *)
Theorem write_results_raises_at_empty_probabilities `{NumpyVersion}
  (good rest : list ndarray) (hrs_good hrs_rest : list scalar) (d : dtype)
  (hr : scalar) (outname : string) (min_hr min_conf : spec_float) (w : world) :
  Forall (fun conf => arr_values conf <> []) good ->
  length good = length hrs_good ->
  write_results (good ++ NdArray d [] :: rest) (hrs_good ++ hr :: hrs_rest) outname
    min_hr min_conf w
  = (Raise (ValueError "attempt to get argmax of an empty sequence"),
     snd (write_results good hrs_good outname min_hr min_conf w)).
Proof.
  intros Hne Hlen. unfold write_results, bind.
  rewrite (write_results_loop_app outname min_hr min_conf good hrs_good
             (NdArray d [] :: rest) (hr :: hrs_rest) [] 0 w Hlen).
  unfold bind.
  destruct (write_results_loop_run outname min_hr min_conf good hrs_good [] 0 w Hne)
    as (w' & Hrun & _); [congruence|].
  rewrite Hrun. reflexivity.
Qed.

(** ** Running [write_results] again *)

(** On clips that have probabilities, a second run of [write_results] on
    the same predictions, with the same thresholds, leaves every file as
    the first run left it. *)
Theorem write_results_again_same_files `{NumpyVersion}
  (probs : list ndarray) (hrs : list scalar)
  (outname : string) (min_hr min_conf : spec_float) (w : world) :
  Forall (fun conf => arr_values conf <> []) probs ->
  let w1 := snd (write_results probs hrs outname min_hr min_conf w) in
  fst (write_results probs hrs outname min_hr min_conf w1) = Ok tt
  /\ files (snd (write_results probs hrs outname min_hr min_conf w1)) = files w1.
Proof.
  intros Hne. cbv zeta. unfold write_results, bind.
  destruct (write_results_loop_run outname min_hr min_conf probs hrs [] 0 w Hne)
    as (w1 & Hrun1 & _ & Hnone1 & Hsome1); [congruence|].
  rewrite Hrun1. cbn [snd ret].
  destruct (write_results_loop_run outname min_hr min_conf probs hrs [] 0 w1 Hne)
    as (w2 & Hrun2 & Hother2 & Hnone2 & Hsome2); [congruence|].
  rewrite Hrun2. cbn [fst snd ret app] in *. split; [reflexivity|].
  destruct (detections min_hr min_conf probs hrs 0) as [|r rows] eqn:Hdet.
  - apply Hnone2. reflexivity.
  - apply map_eq. intros p. destruct (decide (p = outname)) as [->|Hp].
    + rewrite Hsome1, Hsome2 by discriminate. reflexivity.
    + apply Hother2. exact Hp.
Qed.

(** ** Clips that cannot be detections *)

Lemma argmax_zero_nonempty conf : Np.argmax conf = Ok 0%nat -> conf <> [].
Proof. destruct conf; [discriminate | discriminate]. Qed.

Lemma detections_all_background `{NumpyVersion} min_hr min_conf probs : forall hrs idx,
  Forall (fun conf => Np.argmax (arr_values conf) = Ok 0%nat) probs ->
  detections min_hr min_conf probs hrs idx = [].
Proof.
  induction probs as [|conf probs IH]; intros hrs idx Hbg; [reflexivity|].
  destruct hrs as [|hr hrs]; [reflexivity|].
  inversion Hbg as [|? ? Hconf Hbg']; subst. cbn [detections]. rewrite Hconf.
  destruct (Np.max (arr_values conf)); [|reflexivity].
  cbn. apply IH. exact Hbg'.
Qed.

Lemma notices_are_notices outname n :
  Forall (fun e => e = Printed (no_detection_message outname)
                   \/ e = LoggedInfo (no_detection_message outname))
         (notices outname n).
Proof.
  induction n as [|n IH]; cbn [notices]; [constructor|].
  constructor; [left; reflexivity|]. constructor; [right; reflexivity | exact IH].
Qed.

(** When the arg-max of every clip is the background label 0,
    [write_results] returns, changes no file and no folder, and all it
    prints and logs is its notice that no detection has been made. *)
Theorem write_results_all_background `{NumpyVersion}
  (probs : list ndarray) (hrs : list scalar)
  (outname : string) (min_hr min_conf : spec_float) (w : world) :
  Forall (fun conf => Np.argmax (arr_values conf) = Ok 0%nat) probs ->
  exists evs,
    write_results probs hrs outname min_hr min_conf w
    = (Ok tt, World (files w) (dirs w) (events w ++ evs))
    /\ Forall (fun e => e = Printed (no_detection_message outname)
                        \/ e = LoggedInfo (no_detection_message outname)) evs.
Proof.
  intros Hbg.
  assert (Hne : Forall (fun conf : ndarray => arr_values conf <> []) probs).
  { eapply Forall_impl; [exact Hbg|]. intros conf. apply argmax_zero_nonempty. }
  pose proof (write_results_loop_only_writes_at outname min_hr min_conf probs hrs [] 0 w)
    as (Hdirs & _).
  destruct (write_results_loop_run outname min_hr min_conf probs hrs [] 0 w Hne)
    as (w' & Hrun & _ & Hnone & _); [congruence|].
  rewrite Hrun in Hdirs. cbn [snd] in Hdirs.
  exists (notices outname (Nat.min (length probs) (length hrs))).
  split; [|apply notices_are_notices].
  unfold write_results, bind. rewrite Hrun. cbn [ret].
  rewrite (detections_all_background min_hr min_conf probs hrs 0 Hbg) in Hnone.
  destruct (Hnone eq_refl) as [Hf He].
  destruct w' as [f d e]. cbn in *. subst. reflexivity.
Qed.

Lemma round_nan d x : Float.is_nan x = true -> Dtype.round d x = x.
Proof. destruct x; [discriminate.. | reflexivity | discriminate]. Qed.

(** A NaN is above nothing. *)
Lemma np_gt_nan `{NumpyVersion} d x t :
  Float.is_nan x = true -> np_gt (NpFloat d x) t = false.
Proof.
  intros Hx. unfold np_gt, operands. cbn [np_value np_dtype].
  destruct promotion_rule; cbn [fst snd]; rewrite ?(round_nan _ _ Hx);
    destruct (SFltb _ x) eqn:Hlt; [|reflexivity| |reflexivity];
    apply SFltb_not_nan in Hlt; congruence.
Qed.

Lemma maximum_keeps_nan xs : forall a x,
  In x (a :: xs) -> Float.is_nan x = true ->
  Float.is_nan (fold_left Np.maximum xs a) = true.
Proof.
  induction xs as [|y xs IH]; intros a x Hin Hx.
  - destruct Hin as [<-|[]]. exact Hx.
  - cbn [fold_left]. destruct (Float.is_nan a) eqn:Ha.
    + apply (IH _ (Np.maximum a y)); [left; reflexivity|].
      unfold Np.maximum. rewrite Ha, orb_true_r. exact Ha.
    + destruct Hin as [<-|[<-|Hin]].
      * congruence.
      * apply (IH _ (Np.maximum a y)); [left; reflexivity|].
        unfold Np.maximum. rewrite (SFleb_nan_l _ _ Hx), Ha. exact Hx.
      * apply (IH _ x); [right; exact Hin | exact Hx].
Qed.

(** A clip with a NaN among its probabilities has no row in the report,
    whatever the thresholds and whatever its other probabilities and its
    harmonic ratio are. *)
Theorem nan_probability_never_detected `{NumpyVersion}
  (outname : string) (min_hr min_conf : spec_float)
  (probs : list ndarray) (hrs : list scalar) (w : world)
  (i : nat) (conf : ndarray) (x : spec_float) :
  Forall (fun conf => arr_values conf <> []) probs ->
  probs !! i = Some conf -> In x (arr_values conf) -> Float.is_nan x = true ->
  exists rows idx w',
    write_results_loop outname min_hr min_conf probs hrs [] 0 w = (Ok (rows, idx), w')
    /\ forall r, In r rows -> start_detection r <> Some (Z.of_nat i * clip_duration).
Proof.
  intros Hne Hp Hin Hx.
  destruct (write_results_loop_run outname min_hr min_conf probs hrs [] 0 w Hne)
    as (w' & Hrun & _); [congruence|].
  cbn [app] in Hrun. eexists _, _, w'. split; [exact Hrun|].
  intros r Hr Hstart.
  apply detections_In in Hr as (j & c & h & l & m & Hpj & _ & _ & Hmj & Hq & ->).
  cbn in Hstart. unfold clip_duration in Hstart.
  assert (j = i) as -> by (injection Hstart; lia).
  rewrite Hp in Hpj. injection Hpj as <-.
  apply qualifies_spec in Hq as (_ & _ & Hconf).
  destruct conf as [d [|c cs]]; [destruct Hin|].
  cbn [arr_values arr_dtype] in *. cbn in Hmj. injection Hmj as <-.
  pose proof (maximum_keeps_nan cs c x Hin Hx) as Hnan.
  rewrite (np_gt_nan _ _ _ Hnan) in Hconf. discriminate.
Qed.

Lemma argmax_scan_stays xs : forall i mp best,
  (forall x, In x xs -> SFleb x mp = true) -> Np.argmax_scan xs i mp best = best.
Proof.
  induction xs as [|x xs IH]; intros i mp best Hle; [reflexivity|].
  cbn [Np.argmax_scan]. destruct (Float.is_nan mp); [reflexivity|].
  rewrite (Hle x) by (left; reflexivity). cbn [negb].
  apply IH. intros y Hy. apply Hle. right. exact Hy.
Qed.

(** A clip whose background probability is at least every other
    probability of the clip, ties included, has the label 0 and no row in
    the report. *)
Theorem background_at_least_others_never_detected `{NumpyVersion}
  (outname : string) (min_hr min_conf : spec_float)
  (probs : list ndarray) (hrs : list scalar) (w : world)
  (i : nat) (d : dtype) (p0 : spec_float) (others : list spec_float) :
  Forall (fun conf => arr_values conf <> []) probs ->
  probs !! i = Some (NdArray d (p0 :: others)) ->
  (forall x, In x others -> SFleb x p0 = true) ->
  Np.argmax (p0 :: others) = Ok 0%nat
  /\ exists rows idx w',
       write_results_loop outname min_hr min_conf probs hrs [] 0 w = (Ok (rows, idx), w')
       /\ forall r, In r rows -> start_detection r <> Some (Z.of_nat i * clip_duration).
Proof.
  intros Hne Hp Hle.
  assert (Hzero : Np.argmax (p0 :: others) = Ok 0%nat).
  { cbn [Np.argmax]. rewrite (argmax_scan_stays others 1 p0 0%nat Hle). reflexivity. }
  split; [exact Hzero|].
  destruct (write_results_loop_run outname min_hr min_conf probs hrs [] 0 w Hne)
    as (w' & Hrun & _); [congruence|].
  cbn [app] in Hrun. eexists _, _, w'. split; [exact Hrun|].
  intros r Hr Hstart.
  apply detections_In in Hr as (j & c & h & l & m & Hpj & _ & Hlj & _ & Hq & ->).
  cbn in Hstart. unfold clip_duration in Hstart.
  assert (j = i) as -> by (injection Hstart; lia).
  rewrite Hp in Hpj. injection Hpj as <-. cbn [arr_values] in Hlj.
  rewrite Hzero in Hlj. injection Hlj as <-.
  apply qualifies_spec in Hq as (Hl & _). congruence.
Qed.

(** ** Thresholds *)

Lemma SFleb_ltb_trans a b c : SFleb a b = true -> SFltb b c = true -> SFltb a c = true.
Proof. sf_crush. Qed.

Lemma SFleb_ltb_leb a b c : SFleb a b = true -> SFltb b c = true -> SFleb a c = true.
Proof. sf_crush. Qed.

(** Two thresholds in order are in order as the comparison takes them:
    as they are, and under the rule of NumPy 2 once rounded to the dtype
    of what they are compared with. *)
Lemma thresholds_in_order `{NumpyVersion} (x : np_float) (t t' : spec_float) :
  SFleb t t' = true ->
  (promotion_rule = WeakScalars -> Float.valid t = true /\ Float.valid t' = true) ->
  fst (operands x t) = fst (operands x t')
  /\ SFleb (snd (operands x t)) (snd (operands x t')) = true.
Proof.
  unfold operands. intros Hle Hvalid.
  destruct promotion_rule; cbn [fst snd]; (split; [reflexivity|]).
  - exact Hle.
  - destruct (Hvalid eq_refl) as [Ht Ht']. apply round_keeps_order; assumption.
Qed.

Lemma np_gt_stricter `{NumpyVersion} x t t' :
  SFleb t t' = true ->
  (promotion_rule = WeakScalars -> Float.valid t = true /\ Float.valid t' = true) ->
  np_gt x t' = true -> np_gt x t = true.
Proof.
  intros Hle Hvalid. unfold np_gt.
  destruct (thresholds_in_order x t t' Hle Hvalid) as [-> Hord].
  apply SFleb_ltb_trans. exact Hord.
Qed.

Lemma hr_gt_stricter `{NumpyVersion} hr t t' :
  SFleb t t' = true ->
  (promotion_rule = WeakScalars -> Float.valid t = true /\ Float.valid t' = true) ->
  hr_gt hr t' = true -> hr_gt hr t = true.
Proof.
  intros Hle Hvalid. destruct hr as [z|x].
  - unfold hr_gt. cbn [hr_operands fst snd]. apply SFleb_ltb_trans. exact Hle.
  - apply (np_gt_stricter x t t' Hle Hvalid).
Qed.

(** Raising [min_hr], [min_conf] or both can only remove rows: every row
    of the report under the higher thresholds is a row of the report
    under the lower ones. Under the rule of NumPy 2 a threshold is rounded
    to the dtype of what it is compared with, and the rounding keeps the
    order of the thresholds, which are Python floats. *)
Theorem stricter_thresholds_fewer_detections `{NumpyVersion}
  (outname : string) (min_hr min_conf min_hr' min_conf' : spec_float)
  (probs : list ndarray) (hrs : list scalar) (w : world) :
  Forall (fun conf => arr_values conf <> []) probs ->
  SFleb min_hr min_hr' = true -> SFleb min_conf min_conf' = true ->
  (promotion_rule = WeakScalars ->
   Float.valid min_hr = true /\ Float.valid min_hr' = true
   /\ Float.valid min_conf = true /\ Float.valid min_conf' = true) ->
  exists rows idx w1 rows' idx' w2,
    write_results_loop outname min_hr min_conf probs hrs [] 0 w = (Ok (rows, idx), w1)
    /\ write_results_loop outname min_hr' min_conf' probs hrs [] 0 w
       = (Ok (rows', idx'), w2)
    /\ forall r, In r rows' -> In r rows.
Proof.
  intros Hne Hhr Hconf Hvalid.
  destruct (write_results_loop_run outname min_hr min_conf probs hrs [] 0 w Hne)
    as (w1 & Hrun1 & _); [congruence|].
  destruct (write_results_loop_run outname min_hr' min_conf' probs hrs [] 0 w Hne)
    as (w2 & Hrun2 & _); [congruence|].
  cbn [app] in Hrun1, Hrun2.
  eexists _, _, w1, _, _, w2. split; [exact Hrun1|]. split; [exact Hrun2|].
  intros r Hr.
  apply detections_In in Hr as (j & c & h & l & m & Hpj & Hhj & Hlj & Hmj & Hq & ->).
  apply (In_detections min_hr min_conf probs hrs 0 j c h l m Hne Hpj Hhj Hlj Hmj).
  apply qualifies_spec in Hq as (Hl & Hh & Hm). apply qualifies_spec.
  split; [exact Hl|]. split.
  - apply (hr_gt_stricter h min_hr min_hr' Hhr); [|exact Hh].
    intros Hrule. destruct (Hvalid Hrule) as (? & ? & _). auto.
  - apply (np_gt_stricter _ min_conf min_conf' Hconf); [|exact Hm].
    intros Hrule. destruct (Hvalid Hrule) as (_ & _ & ? & ?). auto.
Qed.

(** ** When [predict] returns *)

Lemma predict_loop_returns_readable `{NumpyVersion} `{External} device threshold loader :
  forall probs0 hrs0 r,
    predict_loop loader device threshold probs0 hrs0 = Ok r ->
    Forall (readable device) loader.
Proof.
  induction loader as [|a loader IH]; intros probs0 hrs0 r Hrun; [constructor|].
  cbn [predict_loop] in Hrun.
  destruct (first_row (exp_all (model_forward (to_device device a))))
    as [row|e] eqn:Hrow; [|discriminate].
  cbn [rbind] in Hrun. unfold Np.amax in Hrun.
  destruct (Np.max (arr_values row)) as [mx|e] eqn:Hmx; [|discriminate].
  cbn [rbind] in Hrun. constructor.
  - exists row. split; [exact Hrow|]. intros Hnil. rewrite Hnil in Hmx. discriminate.
  - destruct (np_ge (NpFloat (arr_dtype row) mx) threshold).
    + rewrite compute_hr_run in Hrun. cbn [rbind] in Hrun. eapply IH; exact Hrun.
    + cbn [rbind] in Hrun. eapply IH; exact Hrun.
Qed.

(** [predict] returns exactly when every item of the loader is readable:
    an item for which the classifier gives no row makes it raise
    ([IndexError] at [output[0]]), and so does one whose first row is
    empty ([ValueError] at [max()]); nothing else does. *)
Theorem predict_returns_iff_readable `{NumpyVersion} `{External}
  (loader : list array) (device : string) (threshold : spec_float) :
  (exists r, predict loader device threshold = Ok r)
  <-> Forall (readable device) loader.
Proof.
  split.
  - intros [r Hr]. eapply predict_loop_returns_readable; exact Hr.
  - intros Hread.
    destruct (predict_loop_run device threshold loader [] [] Hread)
      as (probs & hrs & Hrun & _).
    eexists. exact Hrun.
Qed.

(** ** The harmonic ratio of a reported row *)

(** What is above the higher of two thresholds in order reaches the lower
    one. *)
Lemma np_gt_np_ge `{NumpyVersion} x t t' :
  SFleb t t' = true ->
  (promotion_rule = WeakScalars -> Float.valid t = true /\ Float.valid t' = true) ->
  np_gt x t' = true -> np_ge x t = true.
Proof.
  intros Hle Hvalid. unfold np_gt, np_ge.
  destruct (thresholds_in_order x t t' Hle Hvalid) as [-> Hord].
  apply SFleb_ltb_leb. exact Hord.
Qed.

(** When the threshold of [predict] is at most [min_conf], as with the
    defaults of 0.99 for both, every row of the report carries the
    harmonic ratio [compute_hr] gave for its clip, never the sentinel of a
    skipped clip. Under the rule of NumPy 2 the two are rounded to the
    dtype of the probabilities, and the rounding keeps their order, as
    they are Python floats. *)
Theorem detected_rows_carry_computed_hr `{NumpyVersion} `{External}
  (loader : list array) (device : string) (threshold min_hr min_conf : spec_float)
  (outname : string) (w : world) :
  Forall (readable device) loader ->
  SFleb threshold min_conf = true ->
  (promotion_rule = WeakScalars ->
   Float.valid threshold = true /\ Float.valid min_conf = true) ->
  exists probs hrs rows idx w',
    predict loader device threshold = Ok (probs, hrs)
    /\ write_results_loop outname min_hr min_conf probs hrs [] 0 w = (Ok (rows, idx), w')
    /\ forall r, In r rows ->
         exists (i : nat) a label mx hr,
           loader !! i = Some a /\ compute_hr a = Ok hr
           /\ r = [CInt (Z.of_nat i * clip_duration);
                   CInt ((Z.of_nat i + 1) * clip_duration);
                   CInt (Z.of_nat label); CFloat mx; CFloat (np_value hr)].
Proof.
  intros Hread Hthr Hround.
  destruct (predict_loop_run device threshold loader [] [] Hread)
    as (probs & hrs & Hrun & Hlp & Hlh & Hne & Hrec).
  destruct (write_results_loop_run outname min_hr min_conf probs hrs [] 0 w Hne)
    as (w' & Hwr & _); [congruence|].
  cbn [app] in Hwr.
  eexists probs, hrs, _, _, w'. split; [exact Hrun|]. split; [exact Hwr|].
  intros r Hr.
  apply detections_In in Hr as (j & c & h & l & m & Hpj & Hhj & Hlj & Hmj & Hq & ->).
  assert (Hj : (j < length loader)%nat)
    by (rewrite <- Hlp; eapply lookup_lt_Some; exact Hpj).
  apply lookup_lt_is_Some_2 in Hj as [a Ha].
  destruct (Hrec j a Ha) as (c' & h' & Hp' & Hh' & _ & m' & Hm' & Hyes & _).
  rewrite Hpj in Hp'. injection Hp' as <-.
  rewrite Hhj in Hh'. injection Hh' as <-.
  rewrite (amax_of_max c m Hmj) in Hm'. injection Hm' as <-.
  apply qualifies_spec in Hq as (_ & _ & Hconf).
  destruct (Hyes (np_gt_np_ge _ threshold min_conf Hthr Hround Hconf))
    as (hr & Hhr & ->).
  exists j, a, l, m, hr. split; [exact Ha|]. split; [exact Hhr|].
  unfold clip_duration. cbn [hr_cell].
  replace (Z.of_nat j * 3) with (0 + 3 * Z.of_nat j) by lia.
  replace ((Z.of_nat j + 1) * 3) with (0 + 3 * Z.of_nat j + 3) by lia.
  reflexivity.
Qed.

(** With a negative [min_hr] the sentinel passes the harmonic-ratio gate:
    a clip skipped by [predict] whose label is not 0 and whose largest
    probability is above [min_conf] gets a row, and its harmonic ratio is
    the integer 0 of the sentinel. *)
Theorem negative_min_hr_admits_skipped_clip `{NumpyVersion} `{External}
  (loader : list array) (device : string) (threshold min_hr min_conf : spec_float)
  (outname : string) (w : world) (i : nat) (a : array)
  (conf : ndarray) (label : nat) (mx : spec_float) :
  Forall (readable device) loader ->
  loader !! i = Some a ->
  first_row (exp_all (model_forward (to_device device a))) = Ok conf ->
  Np.argmax (arr_values conf) = Ok label -> Np.max (arr_values conf) = Ok mx ->
  np_ge (NpFloat (arr_dtype conf) mx) threshold = false ->
  label <> 0%nat -> SFltb min_hr Float.zero = true ->
  np_gt (NpFloat (arr_dtype conf) mx) min_conf = true ->
  exists probs hrs rows idx w',
    predict loader device threshold = Ok (probs, hrs)
    /\ hrs !! i = Some (PyInt 0)
    /\ write_results_loop outname min_hr min_conf probs hrs [] 0 w = (Ok (rows, idx), w')
    /\ In [CInt (Z.of_nat i * clip_duration); CInt ((Z.of_nat i + 1) * clip_duration);
           CInt (Z.of_nat label); CFloat mx; CInt 0] rows.
Proof.
  intros Hread Hi Hfirst Hlabel Hmx Hgate Hl Hhr Hconf.
  destruct (predict_loop_run device threshold loader [] [] Hread)
    as (probs & hrs & Hrun & Hlp & Hlh & Hne & Hrec).
  destruct (write_results_loop_run outname min_hr min_conf probs hrs [] 0 w Hne)
    as (w' & Hwr & _); [congruence|].
  cbn [app] in Hwr.
  destruct (Hrec i a Hi) as (conf' & hr & Hp & Hh & Hfirst' & mx' & Hmx' & _ & Hno).
  rewrite Hfirst in Hfirst'. injection Hfirst' as <-.
  rewrite (amax_of_max conf mx Hmx) in Hmx'. injection Hmx' as <-.
  rewrite (Hno Hgate) in Hh.
  eexists probs, hrs, _, _, w'. split; [exact Hrun|]. split; [exact Hh|].
  split; [exact Hwr|].
  unfold clip_duration.
  replace (Z.of_nat i * 3) with (0 + 3 * Z.of_nat i) by lia.
  replace ((Z.of_nat i + 1) * 3) with (0 + 3 * Z.of_nat i + 3) by lia.
  apply (In_detections min_hr min_conf probs hrs 0 i conf (PyInt 0) label mx
           Hne Hp Hh Hlabel Hmx).
  apply qualifies_spec. split; [exact Hl|]. split; [exact Hhr | exact Hconf].
Qed.

(** ** [analyzeFile] *)

Lemma endswith_append (c : ascii) (a b : string) :
  b <> EmptyString -> Str.endswith c (a +:+ b) = Str.endswith c b.
Proof.
  intros Hb. induction a as [|x a IH]; rewrite ?append_empty_l, ?append_String;
    [reflexivity|].
  cbn [Str.endswith]. destruct (a +:+ b) as [|y s] eqn:Hab.
  - destruct a; [rewrite append_empty_l in Hab; congruence|].
    rewrite append_String in Hab. discriminate.
  - exact IH.
Qed.

Lemma with_result_folder_only_adds (file_path : string) (w : world) :
  files (with_result_folder file_path w) = files w
  /\ events (with_result_folder file_path w) = events w
  /\ forall d, d ∈ dirs (with_result_folder file_path w)
               <-> d ∈ dirs w
                   \/ (d = result_folder_of file_path
                       \/ d ∈ Path.parents (result_folder_of file_path))
                      /\ exists_in w (result_folder_of file_path) = false.
Proof.
  unfold with_result_folder.
  destruct (exists_in w (result_folder_of file_path)).
  - repeat split; auto. intros [?|[_ ?]]; [assumption | discriminate].
  - split; [reflexivity|]. split; [reflexivity|]. intros d.
    rewrite elem_of_makedirs. tauto.
Qed.


(** Nothing is made when the folder of the results is there. *)
Lemma with_result_folder_there (file_path : string) (w : world) :
  result_folder_of file_path ∈ dirs w -> with_result_folder file_path w = w.
Proof.
  intros Hin. unfold with_result_folder, exists_in.
  rewrite (bool_decide_eq_true_2 _ Hin), orb_true_r. reflexivity.
Qed.

Lemma result_folder_exists_after (file_path : string) (w : world) :
  exists_in (with_result_folder file_path w) (result_folder_of file_path) = true.
Proof.
  unfold with_result_folder.
  destruct (exists_in w (result_folder_of file_path)) eqn:Hex; [exact Hex|].
  unfold exists_in. apply orb_true_iff. right.
  apply bool_decide_eq_true. apply elem_of_makedirs. left. reflexivity.
Qed.

(** [analyzeFile], step by step: the folder, then the skip on the bare
    name of the report, or else the predictions, the report and the last
    line. *)
Lemma analyzeFile_steps `{NumpyVersion} `{External} (file_path device : string) (num_workers : Z)
  (min_hr min_conf : spec_float) (batch_size : Z) (w : world) :
  let w1 := with_result_folder file_path w in
  analyzeFile file_path device num_workers min_hr min_conf batch_size w
  = if exists_in w1 (outname_of file_path)
    then (Ok tt, World (files w1) (dirs w1)
                   (events w1 ++ [Printed ("File " +:+ outname_of file_path
                                            +:+ " already exists")]))
    else
      match predict (DataLoader (get_processed_list file_path) batch_size num_workers)
              device threshold_default with
      | Raise e => (Raise e, w1)
      | Ok preds =>
          match write_results (fst preds) (snd preds) (outpath_of file_path)
                  min_hr min_conf w1 with
          | (Raise e, w2) => (Raise e, w2)
          | (Ok _, w2) =>
              (Ok tt, World (files w2) (dirs w2)
                        (events w2 ++ [Printed (finished_message file_path);
                                       LoggedInfo (finished_message file_path)]))
          end
      end.
Proof.
  cbv zeta. unfold analyzeFile, with_result_folder, bind at 1 2, Os.path_exists.
  fold (result_folder_of file_path). fold (outname_of file_path).
  fold (outpath_of file_path). fold (exists_in w (result_folder_of file_path)).
  destruct (exists_in w (result_folder_of file_path)); cbn [negb ret Os.makedirs].
  - unfold bind at 1. fold (exists_in w (outname_of file_path)).
    destruct (exists_in w (outname_of file_path)); [reflexivity|].
    unfold bind, lift.
    destruct (predict _ device threshold_default) as [preds|e]; [|reflexivity].
    destruct (write_results _ _ _ _ _ w) as [[[]|e] w2]; [|reflexivity].
    unfold Os.print, Os.logging_info, finished_message. cbn.
    rewrite <- app_assoc. reflexivity.
  - unfold bind at 1.
    cbn [snd].
    set (w1 := World (files w)
                 ({[result_folder_of file_path]}
                  ∪ list_to_set (Path.parents (result_folder_of file_path)) ∪ dirs w)
                 (events w)).
    change (snd (Os.makedirs (result_folder_of file_path) w)) with w1.
    fold (exists_in w1 (outname_of file_path)).
    destruct (exists_in w1 (outname_of file_path)); [reflexivity|].
    unfold bind, lift.
    destruct (predict _ device threshold_default) as [preds|e]; [|reflexivity].
    destruct (write_results _ _ _ _ _ w1) as [[[]|e] w2]; [|reflexivity].
    unfold Os.print, Os.logging_info, finished_message. cbn.
    rewrite <- app_assoc. reflexivity.
Qed.


Lemma analyzeFile_frame `{NumpyVersion} `{External}
  (file_path device : string) (num_workers : Z) (min_hr min_conf : spec_float)
  (batch_size : Z) (w : world) :
  let w' := snd (analyzeFile file_path device num_workers min_hr min_conf batch_size w) in
  (forall p, p <> outpath_of file_path -> files w' !! p = files w !! p)
  /\ (forall p, is_Some (files w !! p) -> is_Some (files w' !! p))
  /\ (exists evs, events w' = events w ++ evs)
  /\ (forall d, d ∈ dirs w'
                <-> d ∈ dirs w
                    \/ (d = result_folder_of file_path
                        \/ d ∈ Path.parents (result_folder_of file_path))
                       /\ exists_in w (result_folder_of file_path) = false)
  /\ exists_in w' (result_folder_of file_path) = true.
Proof.
  cbv zeta. rewrite analyzeFile_steps. cbv zeta.
  destruct (with_result_folder_only_adds file_path w) as (Hf & He & Hd).
  pose proof (result_folder_exists_after file_path w) as Hrf.
  set (w1 := with_result_folder file_path w) in *.
  assert (Hkeep : forall w2, only_writes_at (outpath_of file_path) w1 w2 ->
            forall evs,
              let w' := World (files w2) (dirs w2) (events w2 ++ evs) in
              (forall p, p <> outpath_of file_path -> files w' !! p = files w !! p)
              /\ (forall p, is_Some (files w !! p) -> is_Some (files w' !! p))
              /\ (exists evs, events w' = events w ++ evs)
              /\ (forall d, d ∈ dirs w'
                            <-> d ∈ dirs w
                                \/ (d = result_folder_of file_path
                                    \/ d ∈ Path.parents (result_folder_of file_path))
                                   /\ exists_in w (result_folder_of file_path) = false)
              /\ exists_in w' (result_folder_of file_path) = true).
  { intros w2 (Hd2 & Hf2 & Hs2 & e2 & He2) evs. cbn.
    split; [intros p Hp; rewrite (Hf2 p Hp), Hf; reflexivity|].
    split; [intros p Hp; apply Hs2; rewrite Hf; exact Hp|].
    split; [exists (e2 ++ evs); rewrite He2, He, <- app_assoc; reflexivity|].
    split; [intros d; rewrite Hd2; apply Hd|].
    unfold exists_in in *. cbn. rewrite Hd2.
    apply orb_true_iff in Hrf as [Hfile|Hdir]; apply orb_true_iff; [left | right; exact Hdir].
    apply bool_decide_eq_true. apply Hs2. apply bool_decide_eq_true in Hfile. exact Hfile. }
  assert (Hsame : forall w2 : world, World (files w2) (dirs w2) (events w2 ++ []) = w2).
  { intros [f d e]. cbn. rewrite app_nil_r. reflexivity. }
  destruct (exists_in w1 (outname_of file_path)).
  - exact (Hkeep w1 (only_writes_at_refl _ w1) _).
  - destruct (predict _ device threshold_default) as [preds|e].
    + pose proof (write_results_frame (fst preds) (snd preds)
                    (outpath_of file_path) min_hr min_conf w1) as Hwr.
      destruct (write_results _ _ _ _ _ w1) as [[[]|e] w2]; cbn [snd] in Hwr |- *.
      * exact (Hkeep w2 Hwr _).
      * rewrite <- (Hsame w2). exact (Hkeep w2 Hwr []).
    + cbn [snd]. rewrite <- (Hsame w1). exact (Hkeep w1 (only_writes_at_refl _ w1) []).
Qed.

(** Whatever happens in it, [analyzeFile] changes no file but the report
    at its destination, removes no file and no folder, and only adds to
    what was printed and logged. *)
Theorem analyzeFile_only_writes_destination `{NumpyVersion} `{External}
  (file_path device : string) (num_workers : Z) (min_hr min_conf : spec_float)
  (batch_size : Z) (w : world) :
  let w' := snd (analyzeFile file_path device num_workers min_hr min_conf batch_size w) in
  (forall p, p <> outpath_of file_path -> files w' !! p = files w !! p)
  /\ (forall p, is_Some (files w !! p) -> is_Some (files w' !! p))
  /\ (exists evs, events w' = events w ++ evs)
  /\ (forall d, d ∈ dirs w -> d ∈ dirs w').
Proof.
  destruct (analyzeFile_frame file_path device num_workers min_hr min_conf batch_size w)
    as (Hf & Hs & He & Hd & _).
  cbv zeta. split; [exact Hf|]. split; [exact Hs|]. split; [exact He|].
  intros d Hin. apply Hd. left. exact Hin.
Qed.

(** When the folder of the results is there, nothing has the bare name
    of the report and the classifier cannot be read on some clip,
    [analyzeFile] raises before it writes or prints anything: the world
    is as it was. *)
Theorem analyzeFile_unreadable_raises_before_writing `{NumpyVersion} `{External}
  (file_path device : string) (num_workers : Z) (min_hr min_conf : spec_float)
  (batch_size : Z) (w : world) :
  result_folder_of file_path ∈ dirs w ->
  exists_in w (outname_of file_path) = false ->
  ~ Forall (readable device)
      (DataLoader (get_processed_list file_path) batch_size num_workers) ->
  exists e,
    analyzeFile file_path device num_workers min_hr min_conf batch_size w = (Raise e, w).
Proof.
  intros Hdir Hex Hbad. rewrite analyzeFile_steps. cbv zeta.
  rewrite (with_result_folder_there file_path w Hdir), Hex.
  destruct (predict _ device threshold_default) as [preds|e] eqn:Hpred.
  - exfalso. apply Hbad.
    eapply (predict_loop_returns_readable device threshold_default). exact Hpred.
  - eexists. reflexivity.
Qed.

(** When the folder of the results is there, the destination of the
    report is not a folder, nothing has the bare name of the report and
    the classifier can be read on every clip, [analyzeFile] returns; it
    runs [write_results] at the destination on what [predict] gave with
    the default threshold; the last things it does are to print and to
    log the line that it has finished; with a detection the report at the
    destination is the header and the rows, and without one no file has
    changed. *)
Theorem analyzeFile_fresh_run `{NumpyVersion} `{External}
  (file_path device : string) (num_workers : Z) (min_hr min_conf : spec_float)
  (batch_size : Z) (w : world) :
  result_folder_of file_path ∈ dirs w ->
  outpath_of file_path ∉ dirs w ->
  exists_in w (outname_of file_path) = false ->
  Forall (readable device)
    (DataLoader (get_processed_list file_path) batch_size num_workers) ->
  exists probs hrs rows idx w2,
    predict (DataLoader (get_processed_list file_path) batch_size num_workers)
      device threshold_default = Ok (probs, hrs)
    /\ write_results_loop (outpath_of file_path) min_hr min_conf probs hrs [] 0 w
       = (Ok (rows, idx), w2)
    /\ analyzeFile file_path device num_workers min_hr min_conf batch_size w
       = (Ok tt, World (files w2) (dirs w2)
                   (events w2 ++ [Printed (finished_message file_path);
                                  LoggedInfo (finished_message file_path)]))
    /\ (rows <> [] -> files w2 !! outpath_of file_path = Some (header :: rows))
    /\ (rows = [] -> files w2 = files w).
Proof.
  intros Hdir _ Hex Hread.
  destruct (predict_loop_run device threshold_default _ [] [] Hread)
    as (probs & hrs & Hrun & _ & _ & Hne & _).
  destruct (write_results_loop_run (outpath_of file_path) min_hr min_conf probs hrs
              [] 0 w Hne)
    as (w2 & Hwr & _ & Hnone & Hsome); [congruence|].
  cbn [app] in Hwr, Hnone, Hsome.
  eexists probs, hrs, _, _, w2. split; [exact Hrun|]. split; [exact Hwr|].
  split; [|split; [exact Hsome|]].
  - rewrite analyzeFile_steps. cbv zeta.
    rewrite (with_result_folder_there file_path w Hdir), Hex.
    unfold predict. cbn [app] in Hrun. rewrite Hrun. cbn [fst snd].
    unfold write_results, bind. rewrite Hwr. reflexivity.
  - intros Hnil. destruct (Hnone Hnil) as [Hf _]. exact Hf.
Qed.

(** ** Paths *)

Lemma upto_last_without_sep (c : ascii) (s : string) :
  Str.contains c s = false -> Str.upto_last c s = EmptyString.
Proof. destruct s as [|x s]; [reflexivity|]. cbn [Str.upto_last]. intros ->. reflexivity. Qed.

Lemma contains_append_sep (c : ascii) (a b : string) :
  Str.contains c (a +:+ String c b) = true.
Proof.
  induction a as [|x a IH]; rewrite ?append_empty_l, ?append_String; cbn [Str.contains].
  - rewrite Ascii.eqb_refl. reflexivity.
  - rewrite IH. apply orb_true_r.
Qed.

Lemma upto_last_append_sep (c : ascii) (a b : string) :
  Str.contains c b = false ->
  Str.upto_last c (a +:+ String c b) = a +:+ String c EmptyString.
Proof.
  intros Hb. induction a as [|x a IH]; rewrite ?append_empty_l, ?append_String.
  - cbn [Str.upto_last Str.contains]. rewrite Ascii.eqb_refl. cbn [orb].
    rewrite (upto_last_without_sep c b Hb). reflexivity.
  - cbn [Str.upto_last].
    replace (Str.contains c (String x (a +:+ String c b))) with true
      by (cbn [Str.contains]; rewrite contains_append_sep, orb_true_r; reflexivity).
    rewrite IH. reflexivity.
Qed.

Lemma all_are_append_sep (c : ascii) (d : string) :
  d <> EmptyString -> Str.endswith c d = false ->
  Str.all_are c (d +:+ String c EmptyString) = false.
Proof.
  induction d as [|x d IH]; [congruence|]. intros _ Hend.
  rewrite append_String. cbn [Str.all_are]. destruct d as [|y d].
  - cbn [Str.endswith] in Hend. rewrite Hend. reflexivity.
  - rewrite IH; [apply andb_false_r | discriminate | exact Hend].
Qed.

Lemma rstrip_append_sep (c : ascii) (d : string) :
  d <> EmptyString -> Str.endswith c d = false ->
  Str.rstrip c (d +:+ String c EmptyString) = d.
Proof.
  induction d as [|x d IH]; [congruence|]. intros _ Hend.
  rewrite append_String. cbn [Str.rstrip]. destruct d as [|y d].
  - rewrite append_empty_l. cbn [Str.rstrip Str.endswith] in *.
    rewrite Ascii.eqb_refl, Hend. reflexivity.
  - rewrite IH; [reflexivity | discriminate | exact Hend].
Qed.

(** The folder and the base name of [d/b], for a folder [d] that does not
    end with a separator and a base name [b] that has none. *)
Lemma dirname_of_joined (d b : string) :
  d <> EmptyString -> Str.endswith Path.sep d = false ->
  Str.contains Path.sep b = false ->
  Path.dirname (d +:+ String Path.sep b) = d.
Proof.
  intros Hd Hend Hb. unfold Path.dirname.
  rewrite (upto_last_append_sep Path.sep d b Hb).
  rewrite (all_are_append_sep Path.sep d Hd Hend).
  destruct d as [|x d]; [congruence|].
  rewrite append_String at 1. cbn [Str.is_empty negb andb].
  apply (rstrip_append_sep Path.sep (String x d) Hd Hend).
Qed.

Lemma last_app_singleton {A} (l : list A) (x d : A) : List.last (l ++ [x]) d = x.
Proof.
  induction l as [|y l IH]; [reflexivity|].
  cbn [app List.last]. destruct (l ++ [x]) eqn:Hl; [destruct l; discriminate | exact IH].
Qed.

Lemma basename_of_joined (d b : string) :
  Str.contains Path.sep b = false ->
  Path.basename (d +:+ String Path.sep b) = b.
Proof.
  intros Hb. unfold Path.basename.
  rewrite split_append_sep, (split_without_sep _ _ Hb). apply last_app_singleton.
Qed.

Lemma startswith_sep_free (c : ascii) (s t : string) :
  Str.contains c s = false -> Str.startswith c t = false ->
  Str.startswith c (s +:+ t) = false.
Proof.
  destruct s as [|x s]; [rewrite append_empty_l; auto|].
  rewrite append_String. cbn [Str.contains Str.startswith].
  intros Hc _. apply orb_false_iff in Hc as [Hx _]. exact Hx.
Qed.

(** Where the report of a recording [d/stem.rest] goes: [analyzeFile]
    names it by the text before the first dot of the base name, in the
    folder [SNOWMOBILE_RESULTS] beside the recording, so recordings of one
    folder that differ only after the first dot share one report; and a
    run of [analyzeFile] on it changes no other file. *)
Theorem analyzeFile_destination_of_recording `{NumpyVersion} `{External}
  (d stem rest device : string) (num_workers : Z) (min_hr min_conf : spec_float)
  (batch_size : Z) (w : world) :
  d <> EmptyString -> Str.endswith "/"%char d = false ->
  Str.contains "/"%char stem = false -> Str.contains "."%char stem = false ->
  Str.contains "/"%char rest = false ->
  let file_path := d +:+ "/" +:+ stem +:+ "." +:+ rest in
  let dest := (d +:+ "/SNOWMOBILE_RESULTS") +:+ "/" +:+ stem +:+ "_ANALYZED.csv" in
  result_folder_of file_path = d +:+ "/SNOWMOBILE_RESULTS"
  /\ outname_of file_path = stem +:+ "_ANALYZED.csv"
  /\ outpath_of file_path = dest
  /\ forall p, p <> dest ->
       files (snd (analyzeFile file_path device num_workers min_hr min_conf
                     batch_size w)) !! p
       = files w !! p.
Proof.
  intros Hd Hend Hstem Hdot Hrest. cbv zeta.
  change (d +:+ "/" +:+ stem +:+ "." +:+ rest)
    with (d +:+ String Path.sep (stem +:+ String "."%char rest)).
  assert (Hb : Str.contains "/"%char (stem +:+ String "."%char rest) = false).
  { clear -Hstem Hrest. induction stem as [|x s IH];
      rewrite ?append_empty_l, ?append_String; cbn [Str.contains] in *.
    - exact Hrest.
    - apply orb_false_iff in Hstem as [Hx Hs]. rewrite Hx, (IH Hs). reflexivity. }
  assert (Hrf : result_folder_of (d +:+ String Path.sep (stem +:+ String "."%char rest))
                = d +:+ "/SNOWMOBILE_RESULTS").
  { unfold result_folder_of. rewrite (dirname_of_joined d _ Hd Hend Hb).
    unfold Path.join. change (Str.startswith Path.sep "SNOWMOBILE_RESULTS") with false.
    cbv iota. change Path.sep with "/"%char. rewrite Hend.
    destruct d; [congruence | reflexivity]. }
  assert (Hon : outname_of (d +:+ String Path.sep (stem +:+ String "."%char rest))
                = stem +:+ "_ANALYZED.csv").
  { unfold outname_of.
    change (List.last (Str.split "/"%char ?x) EmptyString) with (Path.basename x).
    rewrite (basename_of_joined d _ Hb).
    rewrite split_append_sep, (split_without_sep _ _ Hdot). reflexivity. }
  assert (Hop : outpath_of (d +:+ String Path.sep (stem +:+ String "."%char rest))
                = (d +:+ "/SNOWMOBILE_RESULTS") +:+ "/" +:+ stem +:+ "_ANALYZED.csv").
  { unfold outpath_of. rewrite Hrf, Hon. unfold Path.join.
    rewrite (startswith_sep_free Path.sep stem "_ANALYZED.csv" Hstem eq_refl).
    rewrite endswith_append by discriminate.
    change (Str.endswith Path.sep "/SNOWMOBILE_RESULTS") with false.
    rewrite orb_false_r.
    destruct d; [congruence | reflexivity]. }
  split; [exact Hrf|]. split; [exact Hon|]. split; [exact Hop|].
  intros p Hp. rewrite <- Hop in Hp.
  apply (analyzeFile_frame _ device num_workers min_hr min_conf batch_size w).
  exact Hp.
Qed.

(** [get_outname] on the same recording keeps all of the base name but
    its last extension and mirrors the folder of the recording under
    [out_path]: for [d/stem.ext] it gives [out_path/d/stem.csv], and the
    folder [out_path/d] exists afterwards. *)
Theorem get_outname_of_recording
  (d stem ext out_path : string) (w : world) :
  d <> EmptyString -> Str.endswith "/"%char d = false ->
  Str.contains "/"%char stem = false ->
  Str.contains "/"%char ext = false -> Str.contains "."%char ext = false ->
  let input := d +:+ "/" +:+ stem +:+ "." +:+ ext in
  fst (get_outname input out_path w)
  = Ok (Path.join (out_path +:+ "/" +:+ d) (stem +:+ ".csv"))
  /\ exists_in (snd (get_outname input out_path w)) (out_path +:+ "/" +:+ d) = true.
Proof.
  intros Hd Hend Hstem Hext Hdot. cbv zeta.
  assert (Hb : Str.contains "/"%char (stem +:+ String "."%char ext) = false).
  { clear -Hstem Hext. induction stem as [|x s IH];
      rewrite ?append_empty_l, ?append_String; cbn [Str.contains] in *.
    - exact Hext.
    - apply orb_false_iff in Hstem as [Hx Hs]. rewrite Hx, (IH Hs). reflexivity. }
  pose proof (dirname_of_joined d _ Hd Hend Hb) as Hdir.
  pose proof (basename_of_joined d _ Hb) as Hbase.
  change (d +:+ String Path.sep (stem +:+ String "."%char ext))
    with (d +:+ "/" +:+ stem +:+ "." +:+ ext) in Hdir, Hbase.
  split.
  - rewrite (get_outname_of_stem_ext _ out_path stem ext w Hbase Hdot).
    rewrite Hdir. reflexivity.
  - destruct (get_outname_effects (d +:+ "/" +:+ stem +:+ "." +:+ ext)
                out_path w) as (_ & _ & _ & Hex & _).
    rewrite Hdir in Hex. exact Hex.
Qed.

(** ** The further properties at work *)

Lemma get_outname_strips_last_extension_witness :
  fst (get_outname "data/rec.2021.wav" "out" Demo.empty_world)
  = Ok (Path.join ("out" +:+ "/" +:+ Path.dirname "data/rec.2021.wav")
          ("rec.2021" +:+ ".csv")).
Proof.
  apply (get_outname_strips_last_extension "data/rec.2021.wav" "out" "rec.2021" "wav"
           Demo.empty_world); reflexivity.
Defined.

Lemma get_outname_without_extension_witness :
  fst (get_outname "data/rec" "out" Demo.empty_world)
  = Ok (Path.join ("out" +:+ "/" +:+ Path.dirname "data/rec")
          (Path.basename "data/rec" +:+ ".csv")).
Proof.
  apply (get_outname_without_extension "data/rec" "out" Demo.empty_world); reflexivity.
Defined.

Lemma get_outname_of_recording_witness :
  fst (get_outname ("data" +:+ "/" +:+ "rec.2021" +:+ "." +:+ "wav") "out"
         Demo.empty_world)
  = Ok (Path.join ("out" +:+ "/" +:+ "data") ("rec.2021" +:+ ".csv")).
Proof.
  apply (get_outname_of_recording "data" "rec.2021" "wav" "out" Demo.empty_world);
    (reflexivity || discriminate).
Defined.

(** The folders [get_outname] makes for a recording two folders down. *)
Example get_outname_makes_the_folders_above :
  dirs (snd (get_outname "data/site1/rec.wav" "out" Demo.empty_world))
  = {[ "out/data/site1"%string; "out"%string; "out/data"%string ]}.
Proof. vm_compute. reflexivity. Qed.

(** The engine clip, then a clip without probabilities. *)
Lemma write_results_raises_at_empty_probabilities_witness :
  @write_results Demo.numpy2
    ([Demo.engine_probs] ++ NdArray Float32 [] :: [Demo.engine_probs])
    ([Demo.hr_of Demo.f0_15] ++ Demo.hr_of Demo.f0_15 :: [Demo.hr_of Demo.f0_15])
    "out/rec_ANALYZED.csv" Float.lit_0_1 Float.lit_0_99 Demo.out_world
  = (Raise (ValueError "attempt to get argmax of an empty sequence"),
     snd (@write_results Demo.numpy2 [Demo.engine_probs] [Demo.hr_of Demo.f0_15]
            "out/rec_ANALYZED.csv" Float.lit_0_1 Float.lit_0_99 Demo.out_world)).
Proof.
  apply (@write_results_raises_at_empty_probabilities Demo.numpy2 [Demo.engine_probs]
           [Demo.engine_probs] [Demo.hr_of Demo.f0_15] [Demo.hr_of Demo.f0_15] Float32
           (Demo.hr_of Demo.f0_15) "out/rec_ANALYZED.csv" Float.lit_0_1 Float.lit_0_99
           Demo.out_world);
    [repeat constructor; discriminate | reflexivity].
Defined.

Lemma write_results_again_same_files_witness :
  let w1 := snd (@write_results Demo.numpy2 Demo.probs Demo.hrs "out/rec_ANALYZED.csv"
                   Float.lit_0_1 Float.lit_0_99 Demo.out_world) in
  fst (@write_results Demo.numpy2 Demo.probs Demo.hrs "out/rec_ANALYZED.csv"
         Float.lit_0_1 Float.lit_0_99 w1) = Ok tt
  /\ files (snd (@write_results Demo.numpy2 Demo.probs Demo.hrs "out/rec_ANALYZED.csv"
                   Float.lit_0_1 Float.lit_0_99 w1)) = files w1.
Proof.
  exact (@write_results_again_same_files Demo.numpy2 Demo.probs Demo.hrs
           "out/rec_ANALYZED.csv" Float.lit_0_1 Float.lit_0_99 Demo.out_world
           demo_probs_nonempty).
Defined.

Lemma write_results_all_background_witness :
  exists evs,
    @write_results Demo.numpy2 [Demo.background_probs; Demo.background_probs]
      [PyInt 0; PyInt 0] "out/rec_ANALYZED.csv" Float.lit_0_1 Float.lit_0_99
      Demo.out_world
    = (Ok tt, World (files Demo.out_world) (dirs Demo.out_world)
                (events Demo.out_world ++ evs))
    /\ Forall (fun e => e = Printed (no_detection_message "out/rec_ANALYZED.csv")
                        \/ e = LoggedInfo (no_detection_message "out/rec_ANALYZED.csv"))
              evs.
Proof.
  apply (@write_results_all_background Demo.numpy2
           [Demo.background_probs; Demo.background_probs]
           [PyInt 0; PyInt 0] "out/rec_ANALYZED.csv" Float.lit_0_1
           Float.lit_0_99 Demo.out_world).
  repeat constructor.
Defined.

(** A NaN beside a probability of 0.995 for label 2. *)
Lemma nan_probability_never_detected_witness :
  exists rows idx w',
    @write_results_loop Demo.numpy2 "out/rec_ANALYZED.csv" Float.lit_0_1 Float.lit_0_99
      [NdArray Float32 [Demo.p0_0025; S754_nan; Demo.p0_995]] [Demo.hr_of Demo.f0_15]
      [] 0 Demo.out_world
    = (Ok (rows, idx), w')
    /\ forall r, In r rows -> start_detection r <> Some (Z.of_nat 0 * clip_duration).
Proof.
  apply (@nan_probability_never_detected Demo.numpy2 "out/rec_ANALYZED.csv"
           Float.lit_0_1 Float.lit_0_99
           [NdArray Float32 [Demo.p0_0025; S754_nan; Demo.p0_995]]
           [Demo.hr_of Demo.f0_15] Demo.out_world 0%nat
           (NdArray Float32 [Demo.p0_0025; S754_nan; Demo.p0_995]) S754_nan).
  - repeat constructor; discriminate.
  - reflexivity.
  - right. left. reflexivity.
  - reflexivity.
Defined.

(** Background and another label tied at 0.5. *)
Lemma background_at_least_others_never_detected_witness :
  Np.argmax (Demo.p0_5 :: [Demo.p0_5; Demo.p0_25]) = Ok 0%nat
  /\ exists rows idx w',
       @write_results_loop Demo.numpy2 "out/rec_ANALYZED.csv" Float.zero Float.zero
         [NdArray Float32 [Demo.p0_5; Demo.p0_5; Demo.p0_25]] [Demo.hr_of Demo.f0_15]
         [] 0 Demo.out_world
       = (Ok (rows, idx), w')
       /\ forall r, In r rows -> start_detection r <> Some (Z.of_nat 0 * clip_duration).
Proof.
  apply (@background_at_least_others_never_detected Demo.numpy2 "out/rec_ANALYZED.csv"
           Float.zero Float.zero [NdArray Float32 [Demo.p0_5; Demo.p0_5; Demo.p0_25]]
           [Demo.hr_of Demo.f0_15] Demo.out_world 0%nat Float32 Demo.p0_5
           [Demo.p0_5; Demo.p0_25]).
  - repeat constructor; discriminate.
  - reflexivity.
  - intros x [<-|[<-|[]]]; reflexivity.
Defined.

(** Thresholds of 0.05 and 0.5 against 0.1 and 0.99, under the rule of
    NumPy 2. *)
Lemma stricter_thresholds_fewer_detections_witness :
  exists rows idx w1 rows' idx' w2,
    @write_results_loop Demo.numpy2 "out/rec_ANALYZED.csv" Demo.f0_05 Demo.f0_5
      Demo.probs Demo.hrs [] 0 Demo.out_world = (Ok (rows, idx), w1)
    /\ @write_results_loop Demo.numpy2 "out/rec_ANALYZED.csv" Float.lit_0_1
         Float.lit_0_99 Demo.probs Demo.hrs [] 0 Demo.out_world = (Ok (rows', idx'), w2)
    /\ forall r, In r rows' -> In r rows.
Proof.
  apply (@stricter_thresholds_fewer_detections Demo.numpy2 "out/rec_ANALYZED.csv"
           Demo.f0_05 Demo.f0_5 Float.lit_0_1 Float.lit_0_99 Demo.probs Demo.hrs
           Demo.out_world demo_probs_nonempty).
  - reflexivity.
  - reflexivity.
  - intros _. repeat split; reflexivity.
Defined.

Lemma detected_rows_carry_computed_hr_witness :
  exists probs hrs rows idx w',
    @predict Demo.numpy2 Demo.ext [Demo.background; Demo.engine; Demo.broadband] "cpu"
      threshold_default = Ok (probs, hrs)
    /\ @write_results_loop Demo.numpy2 "out/rec_ANALYZED.csv" Float.lit_0_1
         Float.lit_0_99 probs hrs [] 0 Demo.out_world = (Ok (rows, idx), w')
    /\ forall r, In r rows ->
         exists (i : nat) a label mx hr,
           [Demo.background; Demo.engine; Demo.broadband] !! i = Some a
           /\ @compute_hr Demo.ext a = Ok hr
           /\ r = [CInt (Z.of_nat i * clip_duration);
                   CInt ((Z.of_nat i + 1) * clip_duration);
                   CInt (Z.of_nat label); CFloat mx; CFloat (np_value hr)].
Proof.
  apply (@detected_rows_carry_computed_hr Demo.numpy2 Demo.ext
           [Demo.background; Demo.engine; Demo.broadband] "cpu" threshold_default
           Float.lit_0_1 Float.lit_0_99 "out/rec_ANALYZED.csv" Demo.out_world
           demo_loader_readable).
  - reflexivity.
  - intros _. split; reflexivity.
Defined.

(** The faint clip, with [min_hr] at -0.1 and [min_conf] at 0.25. *)
Lemma negative_min_hr_admits_skipped_clip_witness :
  exists probs hrs rows idx w',
    @predict Demo.numpy2 Demo.ext [Demo.faint] "cpu" threshold_default = Ok (probs, hrs)
    /\ hrs !! 0%nat = Some (PyInt 0)
    /\ @write_results_loop Demo.numpy2 "out/rec_ANALYZED.csv" Demo.minus_0_1 Demo.f0_25
         probs hrs [] 0 Demo.out_world = (Ok (rows, idx), w')
    /\ In [CInt (Z.of_nat 0 * clip_duration); CInt ((Z.of_nat 0 + 1) * clip_duration);
           CInt (Z.of_nat 1); CFloat Demo.p0_5; CInt 0] rows.
Proof.
  apply (@negative_min_hr_admits_skipped_clip Demo.numpy2 Demo.ext [Demo.faint] "cpu"
           threshold_default Demo.minus_0_1 Demo.f0_25 "out/rec_ANALYZED.csv"
           Demo.out_world 0%nat Demo.faint Demo.faint_probs 1%nat Demo.p0_5).
  - repeat constructor. eexists. split; [reflexivity | discriminate].
  - reflexivity.
  - reflexivity.
  - reflexivity.
  - reflexivity.
  - reflexivity.
  - discriminate.
  - reflexivity.
  - reflexivity.
Defined.


Lemma demo_result_folder_there :
  result_folder_of "data/rec.wav" ∈ dirs Demo.analysed_world.
Proof. refine (bool_decide_eq_true_1 _ _). vm_compute. reflexivity. Defined.

(** The results folder is there, with a report of an earlier run in it. *)
Lemma analyzeFile_unreadable_raises_before_writing_witness :
  exists e,
    @analyzeFile Demo.numpy2 Demo.ext_unreadable "data/rec.wav" "cpu" 1
      Float.lit_0_1 Float.lit_0_99 1 Demo.analysed_world
    = (Raise e, Demo.analysed_world).
Proof.
  apply (@analyzeFile_unreadable_raises_before_writing Demo.numpy2 Demo.ext_unreadable
           "data/rec.wav" "cpu" 1 Float.lit_0_1 Float.lit_0_99 1 Demo.analysed_world).
  - exact demo_result_folder_there.
  - vm_compute. reflexivity.
  - intros Hall. inversion Hall as [|? ? (row & Hrow & _) _]. discriminate.
Defined.

Lemma analyzeFile_fresh_run_witness :
  exists probs hrs rows idx w2,
    @predict Demo.numpy2 Demo.ext
      (@DataLoader Demo.ext (@get_processed_list Demo.ext "data/rec.wav") 1 1)
      "cpu" threshold_default = Ok (probs, hrs)
    /\ @write_results_loop Demo.numpy2 (outpath_of "data/rec.wav") Float.lit_0_1
         Float.lit_0_99 probs hrs [] 0 Demo.analysed_world
       = (Ok (rows, idx), w2)
    /\ @analyzeFile Demo.numpy2 Demo.ext "data/rec.wav" "cpu" 1 Float.lit_0_1
         Float.lit_0_99 1 Demo.analysed_world
       = (Ok tt, World (files w2) (dirs w2)
                   (events w2 ++ [Printed (@finished_message Demo.ext "data/rec.wav");
                                  LoggedInfo (@finished_message Demo.ext "data/rec.wav")]))
    /\ (rows <> [] -> files w2 !! outpath_of "data/rec.wav" = Some (header :: rows))
    /\ (rows = [] -> files w2 = files Demo.analysed_world).
Proof.
  apply (@analyzeFile_fresh_run Demo.numpy2 Demo.ext "data/rec.wav" "cpu" 1
           Float.lit_0_1 Float.lit_0_99 1 Demo.analysed_world).
  - exact demo_result_folder_there.
  - refine (bool_decide_eq_false_1 _ _). vm_compute. reflexivity.
  - vm_compute. reflexivity.
  - exact demo_loader_readable.
Defined.

Lemma analyzeFile_destination_of_recording_witness :
  outpath_of ("data" +:+ "/" +:+ "rec" +:+ "." +:+ "2021.wav")
  = ("data" +:+ "/SNOWMOBILE_RESULTS") +:+ "/" +:+ "rec" +:+ "_ANALYZED.csv".
Proof.
  exact (proj1 (proj2 (proj2
    (@analyzeFile_destination_of_recording Demo.numpy2 Demo.ext "data" "rec" "2021.wav"
       "cpu" 1 Float.lit_0_1 Float.lit_0_99 1 Demo.empty_world
       ltac:(discriminate) eq_refl eq_refl eq_refl eq_refl)))).
Defined.
